(** * Particle detection and quantification

    A shallow embedding of [src/particle_detector.py] (class
    [ParticleDetector]): the per-contour feature extraction and shape
    classifier, the aggregation [quantify_particles], the bounded history
    [deque(maxlen=100)] and the capture loop with its start/stop flag.

    Conventions of the embedding.
    - Python floats are read as exact rationals ([Q]); the literals of the
      source ([0.7], [1e-5], [np.pi], ...) are the rationals they denote.
      Rounding, infinities and NaN are outside the model.
    - A Python call that may raise is a computation in [outcome]; a
      [try/except Exception] is a [match] on that outcome.
    - OpenCV is an interface ([cv2], a record of fallible operations): the
      theorems hold for every implementation of it.
    - A dict with optional keys is a record with [option] fields for the
      keys read through [.get]; the dict returned by [quantify_particles],
      whose key set differs between its two branches, is a [gmap]. *)

From Stdlib Require Import QArith Qminmax Qround Lqa Lia ZArith.
From stdpp Require Import gmap strings list fin_maps pretty.

Local Open Scope Q_scope.

(** ** Python values and exceptions *)

Inductive outcome (A : Type) : Type :=
| Returned (a : A)
| Raised (e : string).
Arguments Returned {A} a.
Arguments Raised {A} e.

Global Instance outcome_ret : MRet outcome := fun A a => Returned a.
Global Instance outcome_bind : MBind outcome := fun A B k m =>
  match m with
  | Returned a => k a
  | Raised e => Raised e
  end.

(** What a call hands back to its caller when the embedding has to tell
    [None] from a boolean. *)
Inductive pyval : Type :=
| PyNone
| PyBool (b : bool).

(** ** Float comparisons and arithmetic, on rationals *)

Definition ltb (x y : Q) : bool := negb (Qle_bool y x).
Definition gtb (x y : Q) : bool := ltb y x.
Definition leb (x y : Q) : bool := Qle_bool x y.
Definition geb (x y : Q) : bool := Qle_bool y x.

Declare Scope py_scope.
Delimit Scope py_scope with py.
Infix "<?" := ltb (at level 70, no associativity) : py_scope.
Infix ">?" := gtb (at level 70, no associativity) : py_scope.
Infix "<=?" := leb (at level 70, no associativity) : py_scope.
Infix ">=?" := geb (at level 70, no associativity) : py_scope.
Infix "=?" := Qeq_bool (at level 70, no associativity) : py_scope.
Local Open Scope py_scope.

(** [min(a, b)] and [max(a, b)] of the builtins: the first argument is
    kept unless the second is strictly better. *)
Definition py_min (a b : Q) : Q := if b <? a then b else a.
Definition py_max (a b : Q) : Q := if b >? a then b else a.

(** [a / b] on floats raises on a zero divisor. *)
Definition py_div (a b : Q) : outcome Q :=
  if b =? 0 then Raised "ZeroDivisionError" else Returned (a / b).

(** [int(x)] truncates toward zero. *)
Definition py_int (x : Q) : Z := Z.quot (Qnum x) (Zpos (Qden x)).

(** [np.pi], the double nearest to pi. *)
Definition np_pi : Q := 884279719003555 # 281474976710656.

(** The [1e-5] added to divisors. *)
Definition eps : Q := 1 # 100000.

(** ** Shape classifier and circularity *)

Definition calculate_circularity (area perimeter : Q) : outcome Q :=
  if perimeter =? 0 then mret 0
  else
    circularity ← py_div (4 * np_pi * area) (perimeter ^ 2);
    mret (py_min circularity 1.0).

Definition classify_shape (circularity aspect_ratio : Q) : string :=
  if circularity >? 0.7 then
    if aspect_ratio <? 1.3 then "bead"
    else "spherical"
  else if aspect_ratio >? 3.0 then "fiber"
  else if aspect_ratio >? 1.5 then "fragment"
  else "film".

(** The classifier as the specification words it: a priority list of
    five rules, the first one that applies wins. *)
Definition classify_shape_spec (circularity aspect_ratio : Q) : string :=
  if (circularity >? 0.7) && (aspect_ratio <? 1.3) then "bead"
  else if circularity >? 0.7 then "spherical"
  else if aspect_ratio >? 3.0 then "fiber"
  else if aspect_ratio >? 1.5 then "fragment"
  else "film".

(** The circularity as the specification words it: the isoperimetric
    quotient clamped from above. *)
Definition clamp_upper (x upper : Q) : Q := Qmin x upper.

Definition isoperimetric_quotient (area perimeter : Q) : Q :=
  4 * np_pi * area / (perimeter * perimeter).

(** ** Data model *)

(** A contour is the array of integer boundary points [cv2.findContours]
    returns; [len(contour)] is its length. *)
Definition contour_t : Type := list (Z * Z).

(** The rotated rectangle of [cv2.fitEllipse]:
    [((cx, cy), (width, height), angle)]. *)
Definition ellipse_t : Type := (Q * Q) * (Q * Q) * Q.

(** The three entries of [cv2.moments] the detector reads. *)
Record moments_t : Type := { m00 : Q; m10 : Q; m01 : Q }.

(** The dict [particle_info].  The keys that are written on one branch
    only, or read with [.get] and a default, are optional. *)
Record particle : Type := {
  contour : contour_t;
  area : Q;
  centroid : Z * Z;
  perimeter : Q;
  ellipse : option ellipse_t;
  major_axis : Q;
  minor_axis : Q;
  aspect_ratio : option Q;
  angle : option Q;
  circularity : Q;
  shape_type : string;
  convexity : Q;
  mean_intensity : option Q;
  std_intensity : option Q;
  texture_roughness : option Q
}.

(** [p.get(key, default)]. *)
Definition get {A : Type} (field : option A) (default : A) : A :=
  match field with
  | Some v => v
  | None => default
  end.

(** One entry of [particle_history]. *)
Record snapshot : Type := {
  snap_timestamp : Q;
  snap_particles : list particle;
  snap_count : nat
}.

(** [collections.deque(maxlen=n)]: [append] adds on the right and, when
    the length then exceeds [maxlen], pops on the left. *)
Record deque (A : Type) : Type := { maxlen : nat; items : list A }.
Arguments maxlen {A} _.
Arguments items {A} _.

Definition deque_new {A : Type} (n : nat) : deque A :=
  {| maxlen := n; items := [] |}.

Definition deque_append {A : Type} (x : A) (d : deque A) : deque A :=
  let appended := items d ++ [x] in
  {| maxlen := maxlen d;
     items := if Nat.ltb (maxlen d) (length appended)
              then tail appended else appended |}.

Definition deque_clear {A : Type} (d : deque A) : deque A :=
  {| maxlen := maxlen d; items := [] |}.

(** The object [cv2.VideoCapture(camera_id)] returns, with the three
    properties [initialize_camera] sets. *)
Record capture_t : Type := {
  isOpened : bool;
  frame_width : option Q;
  frame_height : option Q;
  cap_fps : option Q
}.

Inductive cap_prop : Type :=
| CAP_PROP_FRAME_WIDTH
| CAP_PROP_FRAME_HEIGHT
| CAP_PROP_FPS.

Definition cap_set (prop : cap_prop) (v : Q) (c : capture_t) : capture_t :=
  match prop with
  | CAP_PROP_FRAME_WIDTH =>
      {| isOpened := isOpened c; frame_width := Some v;
         frame_height := frame_height c; cap_fps := cap_fps c |}
  | CAP_PROP_FRAME_HEIGHT =>
      {| isOpened := isOpened c; frame_width := frame_width c;
         frame_height := Some v; cap_fps := cap_fps c |}
  | CAP_PROP_FPS =>
      {| isOpened := isOpened c; frame_width := frame_width c;
         frame_height := frame_height c; cap_fps := Some v |}
  end.

(** The OpenCV calls of the detector.  Each may raise.  [region_pixels]
    stands for the three lines that draw the filled mask of a contour and
    select [gray[mask == 255]]. *)
Record cv2 (frame image : Type) : Type := {
  VideoCapture : Z -> outcome capture_t;
  cvtColor : frame -> outcome image;
  bilateralFilter : image -> outcome image;
  clahe_apply : image -> outcome image;
  adaptiveThreshold : image -> outcome image;
  morph_close : image -> outcome image;
  morph_open : image -> outcome image;
  findContours : image -> outcome (list contour_t);
  contourArea : contour_t -> outcome Q;
  moments : contour_t -> outcome moments_t;
  arcLength : contour_t -> outcome Q;
  fitEllipse : contour_t -> outcome ellipse_t;
  convexHull : contour_t -> outcome contour_t;
  region_pixels : frame -> image -> contour_t -> outcome (list Q)
}.
Arguments VideoCapture {frame image} _ _.
Arguments cvtColor {frame image} _ _.
Arguments bilateralFilter {frame image} _ _.
Arguments clahe_apply {frame image} _ _.
Arguments adaptiveThreshold {frame image} _ _.
Arguments morph_close {frame image} _ _.
Arguments morph_open {frame image} _ _.
Arguments findContours {frame image} _ _.
Arguments contourArea {frame image} _ _.
Arguments moments {frame image} _ _.
Arguments arcLength {frame image} _ _.
Arguments fitEllipse {frame image} _ _.
Arguments convexHull {frame image} _ _.
Arguments region_pixels {frame image} _ _ _ _.

(** The attributes of a [ParticleDetector]. *)
Record detector (frame : Type) : Type := {
  camera_id : Z;
  cap : option capture_t;
  is_running : bool;
  current_frame : option frame;
  particles : list particle;
  frame_count : Z;
  fps : Q;
  last_frame_time : Q;
  min_particle_size : Q;
  max_particle_size : Q;
  particle_history : deque snapshot
}.
Arguments camera_id {frame} _.
Arguments cap {frame} _.
Arguments is_running {frame} _.
Arguments current_frame {frame} _.
Arguments particles {frame} _.
Arguments frame_count {frame} _.
Arguments fps {frame} _.
Arguments last_frame_time {frame} _.
Arguments min_particle_size {frame} _.
Arguments max_particle_size {frame} _.
Arguments particle_history {frame} _.

(** ** NumPy reductions

    [np.sqrt] is the one operation with no rational counterpart; it is a
    parameter.  The reductions are called on non-empty arrays only. *)

Section Numpy.
Variable np_sqrt : Q -> Q.

Definition np_sum (a : list Q) : Q := foldr Qplus 0 a.

Definition np_mean (a : list Q) : Q :=
  np_sum a / inject_Z (Z.of_nat (length a)).

Definition np_std (a : list Q) : Q :=
  let m := np_mean a in
  np_sqrt (np_mean (map (fun x => (x - m) * (x - m)) a)).

(** Interior points of [np.gradient]: central differences. *)
Fixpoint central_differences (a : list Q) : list Q :=
  match a with
  | x0 :: ((_ :: x2 :: _) as rest) => (x2 - x0) / 2 :: central_differences rest
  | _ => []
  end.

(** [np.gradient] of a flat array: one-sided differences at both ends;
    fewer than two samples raise. *)
Definition np_gradient (a : list Q) : outcome (list Q) :=
  match a, rev a with
  | x0 :: x1 :: _, xn :: xm :: _ =>
      Returned ((x1 - x0) :: central_differences a ++ [xn - xm])
  | _, _ => Raised "ValueError"
  end.

Definition np_min (a : list Q) : Q :=
  match a with
  | [] => 0
  | x :: rest => foldl Qmin x rest
  end.

Definition np_max (a : list Q) : Q :=
  match a with
  | [] => 0
  | x :: rest => foldl Qmax x rest
  end.

Fixpoint insert_sorted (x : Q) (a : list Q) : list Q :=
  match a with
  | [] => [x]
  | y :: rest => if x <=? y then x :: a else y :: insert_sorted x rest
  end.

Definition np_sort (a : list Q) : list Q := foldr insert_sorted [] a.

(** [np.median]: the middle sample, or the mean of the two middle ones. *)
Definition np_median (a : list Q) : Q :=
  let sorted := np_sort a in
  let n := length a in
  if Nat.even n
  then (nth (n / 2 - 1) sorted 0 + nth (n / 2) sorted 0) / 2
  else nth (n / 2) sorted 0.

(** [np.percentile(a, q)], linear interpolation between the two samples
    around the rank [(n - 1) * q / 100]. *)
Definition np_percentile (a : list Q) (q : Q) : Q :=
  let sorted := np_sort a in
  let n := length a in
  let rank := inject_Z (Z.of_nat (n - 1)) * q / 100 in
  let below := Z.to_nat (Qfloor rank) in
  let above := Nat.min (below + 1) (n - 1) in
  let fraction := rank - inject_Z (Z.of_nat below) in
  nth below sorted 0 + (nth above sorted 0 - nth below sorted 0) * fraction.
End Numpy.

(** ** The detection pipeline: [detect_particles] *)

Section Detection.
Context {frame image : Type}.
Variable np_sqrt : Q -> Q.
Variable cv : cv2 frame image.

(** Lines 66 to 83: grayscale, bilateral filter, CLAHE, adaptive
    threshold, closing then opening, external contours. *)
Definition preprocess (frame0 : frame) : outcome (image * list contour_t) :=
  gray ← cvtColor cv frame0;
  filtered ← bilateralFilter cv gray;
  enhanced ← clahe_apply cv filtered;
  thresh ← adaptiveThreshold cv enhanced;
  morph ← morph_close cv thresh;
  morph ← morph_open cv morph;
  contours ← findContours cv morph;
  mret (gray, contours).

(** The ellipse-derived keys: [(ellipse, major_axis, minor_axis,
    aspect_ratio, angle)]. *)
Definition ellipse_keys (contour0 : contour_t) (area0 : Q)
  : outcome (option ellipse_t * Q * Q * Q * option Q) :=
  if Nat.leb 5 (length contour0) then
    ellipse0 ← fitEllipse cv contour0;
    let axes := snd (fst ellipse0) in
    let longest := py_max (fst axes) (snd axes) in
    let shortest := py_min (fst axes) (snd axes) in
    ratio ← py_div longest (shortest + eps);
    mret (Some ellipse0, longest, shortest, ratio, Some (snd ellipse0))
  else
    mret (None, np_sqrt area0, np_sqrt area0, 1.0, None).

(** The intensity keys, present when the region is not empty:
    [(mean_intensity, std_intensity, texture_roughness)]. *)
Definition intensity_keys (region : list Q)
  : outcome (option Q * option Q * option Q) :=
  if Nat.ltb 0 (length region) then
    gradient ← np_gradient region;
    mret (Some (np_mean region), Some (np_std np_sqrt region),
          Some (np_std np_sqrt gradient))
  else
    mret (None, None, None).

(** The body of the [for contour in contours] loop.  [None] is
    [continue]; [Some info] is the dict that is appended. *)
Definition analyse_contour (self : detector frame) (frame0 : frame)
    (gray : image) (contour0 : contour_t) : outcome (option particle) :=
  area0 ← contourArea cv contour0;
  if (area0 <? min_particle_size self) || (area0 >? max_particle_size self)
  then mret None
  else
    M ← moments cv contour0;
    if m00 M =? 0 then mret None
    else
      x ← py_div (m10 M) (m00 M);
      y ← py_div (m01 M) (m00 M);
      let cx := py_int x in
      let cy := py_int y in
      perimeter0 ← arcLength cv contour0;
      '(ellipse0, major0, minor0, ratio0, angle0) ← ellipse_keys contour0 area0;
      circularity0 ← calculate_circularity area0 perimeter0;
      let shape0 := classify_shape circularity0 (get (Some ratio0) 1.0) in
      hull ← convexHull cv contour0;
      hull_area ← contourArea cv hull;
      convexity0 ← py_div area0 (hull_area + eps);
      region ← region_pixels cv frame0 gray contour0;
      '(mean0, std0, roughness0) ← intensity_keys region;
      mret (Some {| contour := contour0;
                    area := area0;
                    centroid := (cx, cy);
                    perimeter := perimeter0;
                    ellipse := ellipse0;
                    major_axis := major0;
                    minor_axis := minor0;
                    aspect_ratio := Some ratio0;
                    angle := angle0;
                    circularity := circularity0;
                    shape_type := shape0;
                    convexity := convexity0;
                    mean_intensity := mean0;
                    std_intensity := std0;
                    texture_roughness := roughness0 |}).

(** The loop itself.  The list [particles] is mutated in place, so what
    was appended before an exception is still in it afterwards. *)
Fixpoint for_contours (self : detector frame) (frame0 : frame) (gray : image)
    (contours : list contour_t) (particles0 : list particle)
  : outcome unit * list particle :=
  match contours with
  | [] => (Returned tt, particles0)
  | contour0 :: rest =>
      match analyse_contour self frame0 gray contour0 with
      | Raised e => (Raised e, particles0)
      | Returned None => for_contours self frame0 gray rest particles0
      | Returned (Some info) =>
          for_contours self frame0 gray rest (particles0 ++ [info])
      end
  end.

(** The body of the [try]. *)
Definition detect_body (self : detector frame) (frame0 : frame)
    (particles0 : list particle) : outcome unit * list particle :=
  match preprocess frame0 with
  | Raised e => (Raised e, particles0)
  | Returned (gray, contours) => for_contours self frame0 gray contours particles0
  end.

(** [detect_particles]: the handler prints the exception and falls
    through to [return particles]. *)
Definition detect_particles (self : detector frame) (frame0 : frame)
  : list particle :=
  let particles0 := [] in
  match detect_body self frame0 particles0 with
  | (Returned _, particles1) => particles1
  | (Raised _, particles1) => particles1
  end.
End Detection.

(** ** Aggregation: [quantify_particles] *)

(** The values of the dict [quantify_particles] returns. *)
Inductive qvalue : Type :=
| VInt (n : Z)
| VFloat (x : Q)
| VHist (h : gmap string nat).

(** [sum(1 for x in xs if cond(x))]. *)
Fixpoint sum_1_if {A : Type} (cond : A -> bool) (xs : list A) : nat :=
  match xs with
  | [] => 0%nat
  | x :: rest => if cond x then S (sum_1_if cond rest) else sum_1_if cond rest
  end.

(** [xs.count(x)] on a list of strings. *)
Definition py_count (x : string) (xs : list string) : nat :=
  sum_1_if (fun y => bool_decide (y = x)) xs.

(** The loop [for shape in set(shapes): shape_dist[shape] =
    shapes.count(shape)], over the elements of the set in the order the
    set yields them. *)
Definition count_shapes (shapes : list string) : gmap string nat :=
  foldl (fun shape_dist shape => <[shape := py_count shape shapes]> shape_dist)
        ∅ (elements (list_to_set shapes : gset string)).

Section Quantification.
Variable np_sqrt : Q -> Q.

Definition quantify_particles (particles0 : list particle)
  : gmap string qvalue :=
  match particles0 with
  | [] =>
      list_to_map
        [("count", VInt 0);
         ("average_size", VInt 0);
         ("average_length", VInt 0);
         ("average_width", VInt 0);
         ("total_area", VInt 0);
         ("size_distribution", VHist ∅);
         ("shape_distribution", VHist ∅)]
  | _ :: _ =>
      let areas := map area particles0 in
      let lengths := map major_axis particles0 in
      let widths := map minor_axis particles0 in
      let shapes := map shape_type particles0 in
      let aspect_ratios := map (fun p => get (aspect_ratio p) 1.0) particles0 in
      let circularities := map circularity particles0 in
      let size_dist : gmap string nat :=
        list_to_map
          [("tiny", sum_1_if (fun a => a <? 100) areas);
           ("small", sum_1_if (fun a => (100 <=? a) && (a <? 500)) areas);
           ("medium", sum_1_if (fun a => (500 <=? a) && (a <? 2000)) areas);
           ("large", sum_1_if (fun a => a >=? 2000) areas)] in
      let shape_dist := count_shapes shapes in
      let roughness_dist : gmap string nat :=
        list_to_map
          [("smooth",
            sum_1_if (fun p => get (std_intensity p) 0 <? 20) particles0);
           ("rough",
            sum_1_if (fun p => (20 <=? get (std_intensity p) 0)
                               && (get (std_intensity p) 0 <? 50)) particles0);
           ("weathered",
            sum_1_if (fun p => get (std_intensity p) 0 >=? 50) particles0)] in
      list_to_map
        [("count", VInt (Z.of_nat (length particles0)));
         ("average_size", VFloat (np_mean areas));
         ("std_size", VFloat (np_std np_sqrt areas));
         ("average_length", VFloat (np_mean lengths));
         ("average_width", VFloat (np_mean widths));
         ("average_aspect_ratio", VFloat (np_mean aspect_ratios));
         ("average_circularity", VFloat (np_mean circularities));
         ("total_area", VFloat (np_sum areas));
         ("min_size", VFloat (np_min areas));
         ("max_size", VFloat (np_max areas));
         ("size_distribution", VHist size_dist);
         ("shape_distribution", VHist shape_dist);
         ("roughness_distribution", VHist roughness_dist);
         ("median_size", VFloat (np_median areas));
         ("percentile_95", VFloat (np_percentile areas 95))]
  end.
End Quantification.

(** Reading the result: the integer under a key, the histogram under a
    key, and the sum of the bucket counts of a histogram. *)
Definition int_at (key : string) (result : gmap string qvalue) : option Z :=
  match result !! key with
  | Some (VInt n) => Some n
  | _ => None
  end.

Definition hist_at (key : string) (result : gmap string qvalue)
  : option (gmap string nat) :=
  match result !! key with
  | Some (VHist h) => Some h
  | _ => None
  end.

Definition hist_total (h : gmap string nat) : nat :=
  map_fold (fun _ n total => (n + total)%nat) 0%nat h.

(** ** The detector object and the capture loop *)

(** Attribute assignment, [self.x = v]. *)
Section Assignment.
Context {frame : Type}.

Definition set_cap (v : option capture_t) (self : detector frame) : detector frame :=
  {| camera_id := camera_id self; cap := v;
     is_running := is_running self; current_frame := current_frame self;
     particles := particles self; frame_count := frame_count self;
     fps := fps self; last_frame_time := last_frame_time self;
     min_particle_size := min_particle_size self;
     max_particle_size := max_particle_size self;
     particle_history := particle_history self |}.

Definition set_is_running (v : bool) (self : detector frame) : detector frame :=
  {| camera_id := camera_id self; cap := cap self; is_running := v;
     current_frame := current_frame self; particles := particles self;
     frame_count := frame_count self; fps := fps self;
     last_frame_time := last_frame_time self;
     min_particle_size := min_particle_size self;
     max_particle_size := max_particle_size self;
     particle_history := particle_history self |}.

Definition set_current_frame (v : option frame) (self : detector frame) : detector frame :=
  {| camera_id := camera_id self; cap := cap self;
     is_running := is_running self; current_frame := v;
     particles := particles self; frame_count := frame_count self;
     fps := fps self; last_frame_time := last_frame_time self;
     min_particle_size := min_particle_size self;
     max_particle_size := max_particle_size self;
     particle_history := particle_history self |}.

Definition set_particles (v : list particle) (self : detector frame) : detector frame :=
  {| camera_id := camera_id self; cap := cap self;
     is_running := is_running self; current_frame := current_frame self;
     particles := v; frame_count := frame_count self; fps := fps self;
     last_frame_time := last_frame_time self;
     min_particle_size := min_particle_size self;
     max_particle_size := max_particle_size self;
     particle_history := particle_history self |}.

Definition set_frame_count (v : Z) (self : detector frame) : detector frame :=
  {| camera_id := camera_id self; cap := cap self;
     is_running := is_running self; current_frame := current_frame self;
     particles := particles self; frame_count := v; fps := fps self;
     last_frame_time := last_frame_time self;
     min_particle_size := min_particle_size self;
     max_particle_size := max_particle_size self;
     particle_history := particle_history self |}.

Definition set_fps (v : Q) (self : detector frame) : detector frame :=
  {| camera_id := camera_id self; cap := cap self;
     is_running := is_running self; current_frame := current_frame self;
     particles := particles self; frame_count := frame_count self;
     fps := v; last_frame_time := last_frame_time self;
     min_particle_size := min_particle_size self;
     max_particle_size := max_particle_size self;
     particle_history := particle_history self |}.

Definition set_last_frame_time (v : Q) (self : detector frame) : detector frame :=
  {| camera_id := camera_id self; cap := cap self;
     is_running := is_running self; current_frame := current_frame self;
     particles := particles self; frame_count := frame_count self;
     fps := fps self; last_frame_time := v;
     min_particle_size := min_particle_size self;
     max_particle_size := max_particle_size self;
     particle_history := particle_history self |}.

Definition set_particle_history (v : deque snapshot) (self : detector frame) : detector frame :=
  {| camera_id := camera_id self; cap := cap self;
     is_running := is_running self; current_frame := current_frame self;
     particles := particles self; frame_count := frame_count self;
     fps := fps self; last_frame_time := last_frame_time self;
     min_particle_size := min_particle_size self;
     max_particle_size := max_particle_size self; particle_history := v |}.
End Assignment.

(** [ParticleDetector(camera_id)], built at wall-clock time [now]. *)
Definition init {frame : Type} (camera_id0 : Z) (now : Q) : detector frame :=
  {| camera_id := camera_id0;
     cap := None;
     is_running := false;
     current_frame := None;
     particles := [];
     frame_count := 0;
     fps := 0;
     last_frame_time := now;
     min_particle_size := 50;
     max_particle_size := 10000;
     particle_history := deque_new 100 |}.

(** What one turn of the [while] loop meets outside the detector: whether
    another thread ran [stop_capture] since the previous turn, what
    [cap.read()] gives ([Some f] for [(True, f)], [None] for
    [(False, _)]), and the two clocks. *)
Record tick (frame : Type) : Type := {
  stop_requested : bool;
  read : outcome (option frame);
  datetime_now : Q;
  time_now : Q
}.
Arguments stop_requested {frame} _.
Arguments read {frame} _.
Arguments datetime_now {frame} _.
Arguments time_now {frame} _.

(** How far a thread running [capture_loop] has come. *)
Inductive thread_state : Type :=
| Looping
| Finished.

Section Capture.
Context {frame image : Type}.
Variable np_sqrt : Q -> Q.
Variable cv : cv2 frame image.

Definition initialize_camera (self : detector frame) : bool * detector frame :=
  match VideoCapture cv (camera_id self) with
  | Raised _ => (false, self)
  | Returned device =>
      let device := cap_set CAP_PROP_FRAME_WIDTH 640 device in
      let device := cap_set CAP_PROP_FRAME_HEIGHT 480 device in
      let device := cap_set CAP_PROP_FPS 30 device in
      let self := set_cap (Some device) self in
      if negb (isOpened device) then (false, self) else (true, self)
  end.

Definition release_camera (self : detector frame) : detector frame :=
  match cap self with
  | Some _ => set_cap None self
  | None => self
  end.

Definition stop_capture (self : detector frame) : detector frame :=
  set_is_running false self.

Definition get_current_particles (self : detector frame) : list particle :=
  particles self.

Definition get_quantification (self : detector frame) : gmap string qvalue :=
  quantify_particles np_sqrt (particles self).

(** Lines 229 to 242, after a successful read.  The division of the
    rate estimate may raise; the assignments before it have then
    happened. *)
Definition publish (t : tick frame) (frame0 : frame) (self : detector frame)
  : outcome unit * detector frame :=
  let self := set_particles (detect_particles np_sqrt cv self frame0) self in
  let self :=
    set_particle_history
      (deque_append {| snap_timestamp := datetime_now t;
                       snap_particles := particles self;
                       snap_count := length (particles self) |}
                    (particle_history self)) self in
  let current_time := time_now t in
  match py_div 1.0 (current_time - last_frame_time self + eps) with
  | Raised e => (Raised e, self)
  | Returned rate =>
      let self := set_fps rate self in
      let self := set_last_frame_time current_time self in
      let self := set_frame_count (frame_count self + 1) self in
      let self := set_current_frame (Some frame0) self in
      (Returned tt, self)
  end.

(** The snapshot one turn of the loop appends, in terms of the state
    the turn starts from. *)
Definition snapshot_of (t : tick frame) (frame0 : frame)
    (self : detector frame) : snapshot :=
  {| snap_timestamp := datetime_now t;
     snap_particles := detect_particles np_sqrt cv self frame0;
     snap_count := length (detect_particles np_sqrt cv self frame0) |}.

(** The [while self.is_running] loop over the turns the schedule
    provides.  [Looping]: the schedule ended with the thread still in
    the loop.  [Finished]: the loop was left, by the flag, by a failed
    read or by an exception (which the handler prints). *)
Fixpoint while_running (schedule : list (tick frame)) (self : detector frame)
  : thread_state * detector frame :=
  match schedule with
  | [] => (Looping, self)
  | t :: later =>
      let self := if stop_requested t then stop_capture self else self in
      if negb (is_running self) then (Finished, self)
      else
        match read t with
        | Raised _ => (Finished, self)
        | Returned None => (Finished, self)
        | Returned (Some frame0) =>
            match publish t frame0 self with
            | (Raised _, self) => (Finished, self)
            | (Returned _, self) => while_running later self
            end
        end
  end.

(** [capture_loop], the body of the thread.  The [finally] clause runs
    when the loop is left. *)
Definition capture_loop (schedule : list (tick frame)) (self : detector frame)
  : thread_state * detector frame :=
  let '(opened, self) := initialize_camera self in
  if negb opened then (Finished, self)
  else
    let self := set_is_running true self in
    match while_running schedule self with
    | (Looping, self) => (Looping, self)
    | (Finished, self) =>
        let self := release_camera self in
        (Finished, set_is_running false self)
    end.

(** [start_capture]: what the caller gets back, and whether a thread
    running [capture_loop] was started. *)
Definition start_capture (self : detector frame) : pyval * bool :=
  if negb (is_running self) then (PyNone, true) else (PyNone, false).

(** [start_capture] followed by the run of the thread it started, if
    any, along a schedule. *)
Definition start (schedule : list (tick frame)) (self : detector frame)
  : pyval * detector frame :=
  let '(result, spawned) := start_capture self in
  if spawned then (result, snd (capture_loop schedule self))
  else (result, self).
End Capture.

(** ** The calls a hosting application makes on a detector

    [start_capture] (with the run of its thread), [stop_capture], and the
    [particle_history.clear()] the web server does before a new session. *)

Inductive call (frame : Type) : Type :=
| Start (schedule : list (tick frame))
| Stop
| ClearHistory.
Arguments Start {frame} schedule.
Arguments Stop {frame}.
Arguments ClearHistory {frame}.

Section Calls.
Context {frame image : Type}.
Variable np_sqrt : Q -> Q.
Variable cv : cv2 frame image.

Definition run_call (self : detector frame) (c : call frame) : detector frame :=
  match c with
  | Start schedule => snd (start np_sqrt cv schedule self)
  | Stop => stop_capture self
  | ClearHistory =>
      set_particle_history (deque_clear (particle_history self)) self
  end.

Definition run_calls (calls : list (call frame)) (self : detector frame)
  : detector frame :=
  foldl run_call self calls.
End Calls.

(** ** Specification-side notions used in the statements *)

(** The descriptors the loop has appended when it stops at the first
    contour whose analysis raises. *)
Fixpoint kept_before_failure (results : list (outcome (option particle)))
  : list particle :=
  match results with
  | [] => []
  | Raised _ :: _ => []
  | Returned None :: rest => kept_before_failure rest
  | Returned (Some info) :: rest => info :: kept_before_failure rest
  end.

(** The camera does not open: the constructor raises, or the device it
    returns is not opened. *)
Definition open_fails {frame image : Type} (cv : cv2 frame image)
    (self : detector frame) : Prop :=
  match VideoCapture cv (camera_id self) with
  | Raised _ => True
  | Returned device => isOpened device = false
  end.

(** A buffer holds no more than its capacity. *)
Definition within_capacity {A : Type} (d : deque A) : Prop :=
  (length (items d) <= maxlen d)%nat.

(** A histogram built one sample at a time; it is the histogram
    [count_shapes] builds per distinct value. *)
Fixpoint tally (shapes : list string) : gmap string nat :=
  match shapes with
  | [] => ∅
  | shape :: rest =>
      let counted := tally rest in
      <[shape := S (default 0%nat (counted !! shape))]> counted
  end.

(** ** A bench double of the OpenCV interface

    Frames are synthetic: a frame is known by the contours it holds and
    by what OpenCV measures on each of them. *)

Record measurement : Type := {
  on_contour : contour_t;
  area_of : outcome Q;
  moments_of : outcome moments_t;
  perimeter_of : outcome Q;
  ellipse_of : outcome ellipse_t;
  hull_of : outcome contour_t;
  pixels_of : outcome (list Q)
}.

Definition measured (table : list measurement) (c : contour_t)
  : outcome measurement :=
  match List.find (fun m => bool_decide (on_contour m = c)) table with
  | Some m => Returned m
  | None => Raised "cv2.error"
  end.

Definition bench (camera : outcome capture_t) (table : list measurement)
  : cv2 unit unit :=
  {| VideoCapture := fun _ => camera;
     cvtColor := fun _ => Returned tt;
     bilateralFilter := fun _ => Returned tt;
     clahe_apply := fun _ => Returned tt;
     adaptiveThreshold := fun _ => Returned tt;
     morph_close := fun _ => Returned tt;
     morph_open := fun _ => Returned tt;
     findContours := fun _ => Returned (map on_contour table);
     contourArea := fun c => m ← measured table c; area_of m;
     moments := fun c => m ← measured table c; moments_of m;
     arcLength := fun c => m ← measured table c; perimeter_of m;
     fitEllipse := fun c => m ← measured table c; ellipse_of m;
     convexHull := fun c => m ← measured table c; hull_of m;
     region_pixels := fun _ _ c => m ← measured table c; pixels_of m |}.

(** A square root to two decimals, for running the examples. *)
Definition sqrt_2dp (x : Q) : Q :=
  inject_Z (Z.sqrt (Qfloor (x * 10000))) / 100.

(** A 10 by 10 square outlined by eight points.  Its fitted ellipse has
    two equal axes. *)
Definition square_outline : contour_t :=
  [(0, 0); (5, 0); (10, 0); (10, 5); (10, 10); (5, 10); (0, 10); (0, 5)]%Z.

Definition square : measurement :=
  {| on_contour := square_outline;
     area_of := Returned 100;
     moments_of := Returned {| m00 := 100; m10 := 500; m01 := 500 |};
     perimeter_of := Returned 40;
     ellipse_of := Returned ((5, 5), (11.5, 11.5), 0);
     hull_of := Returned square_outline;
     pixels_of := Returned [120; 124; 118; 122] |}.

(** A second contour on which the ellipse fit raises. *)
Definition sliver_outline : contour_t :=
  [(20, 20); (30, 20); (40, 20); (50, 20); (60, 20); (60, 22); (20, 22)]%Z.

Definition sliver : measurement :=
  {| on_contour := sliver_outline;
     area_of := Returned 80;
     moments_of := Returned {| m00 := 80; m10 := 3200; m01 := 1680 |};
     perimeter_of := Returned 84;
     ellipse_of := Raised "cv2.error";
     hull_of := Returned sliver_outline;
     pixels_of := Returned [90; 95; 93] |}.

Definition webcam : outcome capture_t :=
  Returned {| isOpened := true; frame_width := None;
              frame_height := None; cap_fps := None |}.

Definition no_webcam : outcome capture_t :=
  Returned {| isOpened := false; frame_width := None;
              frame_height := None; cap_fps := None |}.

Definition fresh : detector unit := init 0 0.

(** Three turns of the loop, each reading a frame, 40 ms apart. *)
Definition three_frames : list (tick unit) :=
  [ {| stop_requested := false; read := Returned (Some tt);
       datetime_now := 1; time_now := 0.04 |};
    {| stop_requested := false; read := Returned (Some tt);
       datetime_now := 2; time_now := 0.08 |};
    {| stop_requested := false; read := Returned (Some tt);
       datetime_now := 3; time_now := 0.12 |} ].

(** A hundred turns, each reading a frame: enough to fill the history. *)
Definition hundred_frames : list (tick unit) :=
  repeat {| stop_requested := false; read := Returned (Some tt);
            datetime_now := 1; time_now := 0.04 |} 100.

(** The turn after those. *)
Definition next_frame : tick unit :=
  {| stop_requested := false; read := Returned (Some tt);
     datetime_now := 2; time_now := 0.08 |}.

(** The detector after a session of a hundred frames showing [square]. *)
Abbreviation full_session :=
  (run_calls sqrt_2dp (bench webcam [square]) [Start hundred_frames] fresh)
  (only parsing).

(** The descriptor the pipeline builds for [square]. *)
Definition square_particle : particle :=
  {| contour := square_outline;
     area := 100;
     centroid := (5, 5)%Z;
     perimeter := 40;
     ellipse := Some ((5, 5), (11.5, 11.5), 0);
     major_axis := 11.5;
     minor_axis := 11.5;
     aspect_ratio := Some (115000000 # 115000100);
     angle := Some 0;
     circularity := 353711887601422000 # 450359962737049600;
     shape_type := "bead";
     convexity := 10000000 # 10000001;
     mean_intensity := Some (484 # 4);
     std_intensity := Some 2.23;
     texture_roughness := Some 2.50 |}.

(** ** Readers of the detector *)

(** What the pipeline guarantees of a descriptor, for size bounds [lo]
    and [hi]. *)
Definition sound_descriptor (lo hi : Q) (p : particle) : Prop :=
  lo <= area p <= hi
  /\ 0 <= circularity p <= 1
  /\ shape_type p = classify_shape (circularity p) (get (aspect_ratio p) 1.0).

(** A snapshot whose count is the length of its list and whose
    descriptors are sound. *)
Definition sound_snapshot (lo hi : Q) (s : snapshot) : Prop :=
  snap_count s = length (snap_particles s)
  /\ Forall (sound_descriptor lo hi) (snap_particles s).

(** The number of samples, as a rational. *)
Definition size_of (a : list Q) : Q := inject_Z (Z.of_nat (length a)).

(** The float under a key of the dict [quantify_particles] returns. *)
Definition float_at (key : string) (result : gmap string qvalue) : option Q :=
  match result !! key with
  | Some (VFloat x) => Some x
  | _ => None
  end.

(** The dict [get_statistics] returns. *)
Record statistics : Type := {
  stat_frame_count : Z;
  stat_fps : Q;
  stat_current_particle_count : nat;
  stat_particles : list particle;
  stat_quantification : gmap string qvalue;
  stat_is_running : bool
}.

Definition get_statistics {frame : Type} (np_sqrt : Q -> Q)
    (self : detector frame) : statistics :=
  {| stat_frame_count := frame_count self;
     stat_fps := fps self;
     stat_current_particle_count := length (particles self);
     stat_particles := particles self;
     stat_quantification := quantify_particles np_sqrt (particles self);
     stat_is_running := is_running self |}.

(** ** The routes of [src/server.py] on the live detector

    The module keeps one global [detector], [None] until the first
    [/api/webcam/start].  A route is a function of that global (and of the
    session and request where it reads them) to an HTTP status and a
    payload.  String formatting of numbers and dates is a parameter. *)

(** [if x:] on a session entry that holds an integer id. *)
Definition logged_in (user_id : option Z) : bool :=
  match user_id with
  | Some n => negb (Z.eqb n 0)
  | None => false
  end.

(** The JSON body of [/api/particles/save]; every key is optional. *)
Record save_request : Type := {
  req_location : option string;
  req_polymer_type : option string;
  req_color : option string;
  req_density : option Q;
  req_transparency : option string;
  req_sample_type : option string
}.

(** The [Microplastic] row built for one live particle. *)
Record live_row : Type := {
  row_user_id : Z;
  row_sample_id : string;
  row_location : string;
  row_structure_type : string;
  row_polymer_type : string;
  row_shape : string;
  row_aspect_ratio : Q;
  row_length : Q;
  row_width : Q;
  row_thickness : Q;
  row_area : Q;
  row_volume : Q;
  row_color : string;
  row_density : Q;
  row_transparency : string;
  row_surface_texture : string;
  row_risk_level : string;
  row_concentration : Q;
  row_sample_type : string;
  row_confidence_score : Q
}.

(** Lines 839 to 845 of [save_detected_particles]: the structure of a
    particle, ['fragment'] unless its shape is one of three. *)
Definition structure_type_of (shape_type0 : string) : string :=
  if String.eqb shape_type0 "fiber" then "fiber"
  else if String.eqb shape_type0 "bead" then "bead"
  else if String.eqb shape_type0 "film" then "film"
  else "fragment".

(** Lines 848 to 856: the risk level, from the area and the circularity. *)
Definition risk_level_of (size circularity0 : Q) : string :=
  if (size >? 5000) || (circularity0 <? 0.3) then "critical"
  else if (size >? 2000) || (circularity0 <? 0.5) then "high"
  else if size >? 500 then "medium"
  else "low".

(** The rank of a risk level, for comparing two of them. *)
Definition risk_rank (level : string) : nat :=
  if String.eqb level "critical" then 3
  else if String.eqb level "high" then 2
  else if String.eqb level "medium" then 1
  else 0.

Section Server.
Context {frame : Type}.
(** [f"LIVE-{frame_count:06d}-{idx:03d}"]. *)
Variable format_sample_id : Z -> nat -> string.
(** [timestamp.strftime(fmt)] and [timestamp.isoformat()]. *)
Variable strftime : string -> Q -> string.
Variable isoformat : Q -> string.
(** [db.session.add] of the rows, then [db.session.commit()]. *)
Variable commit : list live_row -> outcome unit.

(** The body of the loop [for idx, particle in enumerate(particles)]. *)
Definition live_row_of (user_id : Z) (data : save_request)
    (self : detector frame) (idx : nat) (p : particle) : live_row :=
  let size := area p in
  {| row_user_id := user_id;
     row_sample_id := format_sample_id (frame_count self) idx;
     row_location := get (req_location data) "Live Webcam";
     row_structure_type := structure_type_of (shape_type p);
     row_polymer_type := get (req_polymer_type data) "Unknown";
     row_shape := shape_type p;
     row_aspect_ratio := get (aspect_ratio p) 1.0;
     row_length := major_axis p;
     row_width := minor_axis p;
     row_thickness := major_axis p * 0.5;
     row_area := area p;
     row_volume := area p * major_axis p * 0.25;
     row_color := get (req_color data) "N/A";
     row_density := get (req_density data) 1.0;
     row_transparency := get (req_transparency data) "Unknown";
     row_surface_texture :=
       if get (std_intensity p) 0 >? 30 then "rough" else "smooth";
     row_risk_level := risk_level_of size (circularity p);
     row_concentration :=
       inject_Z (Z.of_nat (length (particles self))) / 640 / 480 * 1000000;
     row_sample_type := get (req_sample_type data) "live_analysis";
     row_confidence_score := py_min (circularity p * 100) 100 |}.

(** [/api/particles/save]: the status and the rows committed.  A request
    without a JSON body makes [data.get] raise inside the [try]. *)
Definition save_detected_particles (user_id : option Z)
    (data : option save_request) (detector0 : option (detector frame))
  : Z * list live_row :=
  if negb (logged_in user_id) then (401%Z, [])
  else
    match detector0 with
    | None => (400%Z, [])
    | Some self =>
        match particles self with
        | [] => (400%Z, [])
        | _ :: _ =>
            match data with
            | None => (400%Z, [])
            | Some data =>
                let rows :=
                  imap (live_row_of (get user_id 0%Z) data self) (particles self) in
                match commit rows with
                | Returned _ => (201%Z, rows)
                | Raised _ => (400%Z, [])
                end
            end
        end
    end.

(** One cell of a CSV row. *)
Inductive cell : Type :=
| Text (s : string)
| Number (n : Z).

(** The surface label of [export_live_csv]. *)
Definition csv_surface (p : particle) : string :=
  if get (std_intensity p) 0 >? 40 then "weathered"
  else if get (std_intensity p) 0 >? 20 then "rough"
  else "smooth".

(** The rows [export_live_csv] writes for one snapshot: one per
    particle. *)
Definition snapshot_rows (s : snapshot) : list (list cell) :=
  let date_str := String.append "'" (strftime "%d-%m-%Y" (snap_timestamp s)) in
  let time_str := strftime "%H:%M:%S" (snap_timestamp s) in
  map (fun p => [Text date_str; Text time_str;
                 Number (Z.of_nat (snap_count s));
                 Text (shape_type p); Text (csv_surface p)])
      (snap_particles s).

Definition csv_header : list cell :=
  [Text "date"; Text "time"; Text "particle_count"; Text "particle_shape";
   Text "particle_surface"].

(** [/api/export/live/csv]: the status and the rows handed to the CSV
    writer. *)
Definition export_live_csv (detector0 : option (detector frame))
  : Z * list (list cell) :=
  match detector0 with
  | None => (400%Z, [])
  | Some self =>
      (200%Z,
       csv_header :: flat_map snapshot_rows (items (particle_history self)))
  end.

(** [/api/particles/history]: the list under ['history']. *)
Definition get_particles_history (detector0 : option (detector frame))
  : list (string * nat) :=
  match detector0 with
  | None => []
  | Some self =>
      match items (particle_history self) with
      | [] => []
      | entries => map (fun entry => (isoformat (snap_timestamp entry),
                                      snap_count entry)) entries
      end
  end.
End Server.

(** The dict of [/api/webcam/status]. *)
Record webcam_state : Type := {
  ws_is_running : bool;
  ws_frame_count : Z;
  ws_fps : Q;
  ws_particle_count : nat
}.

Section Webcam.
Context {frame image : Type}.
Variable np_sqrt : Q -> Q.
Variable cv : cv2 frame image.
(** [round(x, 1)]. *)
Variable round1 : Q -> Q.

(** [/api/webcam/start], at wall-clock time [now]: the status, the
    ['status'] of the answer, and the global detector afterwards.  The
    thread that [start_capture] starts runs along [schedule]. *)
Definition start_webcam (now : Q) (schedule : list (tick frame))
    (detector0 : option (detector frame))
  : Z * string * option (detector frame) :=
  let self := match detector0 with
              | None => init 0 now
              | Some self => self
              end in
  let self := set_particle_history (deque_clear (particle_history self)) self in
  let self := if negb (is_running self)
              then snd (start np_sqrt cv schedule self)
              else self in
  (200%Z, "running", Some self).

(** [/api/webcam/stop]. *)
Definition stop_webcam (detector0 : option (detector frame))
  : Z * string * option (detector frame) :=
  match detector0 with
  | Some self => (200%Z, "stopped", Some (stop_capture self))
  | None => (200%Z, "stopped", None)
  end.

(** [/api/webcam/status]. *)
Definition webcam_status (detector0 : option (detector frame)) : webcam_state :=
  match detector0 with
  | None => {| ws_is_running := false; ws_frame_count := 0; ws_fps := 0;
               ws_particle_count := 0 |}
  | Some self => {| ws_is_running := is_running self;
                    ws_frame_count := frame_count self;
                    ws_fps := round1 (fps self);
                    ws_particle_count := length (particles self) |}
  end.
End Webcam.

(** A schedule on which nothing ends the loop: no stop request, every
    read gives a frame, and the wall clock never goes back, starting from
    [last]. *)
Fixpoint steady {frame : Type} (last : Q) (schedule : list (tick frame)) : Prop :=
  match schedule with
  | [] => True
  | t :: later =>
      stop_requested t = false
      /\ (exists frame0, read t = Returned (Some frame0))
      /\ last <= time_now t
      /\ steady (time_now t) later
  end.

(** [f"{n:0{width}d}"] and the sample id of a live particle,
    [f"LIVE-{frame_count:06d}-{idx:03d}"]. *)
Definition format_0d (width : nat) (n : Z) : string :=
  let digits := pretty (Z.abs_N n) in
  let sign := if Z.ltb n 0 then "-" else "" in
  let zeros := replicate (width - String.length sign - String.length digits)
                         (Ascii.ascii_of_nat 48) in
  String.append sign (String.append (String.string_of_list_ascii zeros) digits).

Definition live_sample_id (frame_count0 : Z) (idx : nat) : string :=
  String.append "LIVE-"
    (String.append (format_0d 6 frame_count0)
       (String.append "-" (format_0d 3 (Z.of_nat idx)))).

(** The number a string of decimal digits denotes; used to read a
    formatted number back. *)
Definition digit_value (c : Ascii.ascii) : N := (Ascii.N_of_ascii c - 48)%N.

Fixpoint decimal_value (s : string) : N :=
  match s with
  | EmptyString => 0%N
  | String c rest =>
      (digit_value c * 10 ^ N.of_nat (String.length rest)
       + decimal_value rest)%N
  end.

(** The numeric keys of the body of [POST /api/microplastics] that
    [create_microplastic] may fill in. *)
Record sample_data : Type := {
  data_length : option Q;
  data_width : option Q;
  data_thickness : option Q;
  data_area : option Q;
  data_volume : option Q;
  data_aspect_ratio : option Q
}.

(** [if data.get(key):] on a number: present and not zero. *)
Definition provided (field : option Q) : bool :=
  match field with
  | Some x => negb (x =? 0)
  | None => false
  end.

(** Lines 301 to 310 of [create_microplastic]: three statements that
    compute the area, the volume and the aspect ratio from the dimensions
    when they are not given. *)
Definition fill_area (data : sample_data) : sample_data :=
  if provided (data_length data) && provided (data_width data)
     && negb (provided (data_area data))
  then {| data_length := data_length data; data_width := data_width data;
          data_thickness := data_thickness data;
          data_area := Some (get (data_length data) 0 * get (data_width data) 0);
          data_volume := data_volume data;
          data_aspect_ratio := data_aspect_ratio data |}
  else data.

Definition fill_volume (data : sample_data) : sample_data :=
  if provided (data_length data) && provided (data_width data)
     && provided (data_thickness data) && negb (provided (data_volume data))
  then {| data_length := data_length data; data_width := data_width data;
          data_thickness := data_thickness data;
          data_area := data_area data;
          data_volume := Some (get (data_length data) 0 * get (data_width data) 0
                               * get (data_thickness data) 0);
          data_aspect_ratio := data_aspect_ratio data |}
  else data.

Definition fill_aspect_ratio (data : sample_data) : sample_data :=
  if provided (data_length data) && provided (data_width data)
     && negb (provided (data_aspect_ratio data))
  then {| data_length := data_length data; data_width := data_width data;
          data_thickness := data_thickness data;
          data_area := data_area data;
          data_volume := data_volume data;
          data_aspect_ratio :=
            Some (if get (data_width data) 0 >? 0
                  then get (data_length data) 0 / get (data_width data) 0
                  else 0) |}
  else data.

Definition fill_derived (data : sample_data) : sample_data :=
  fill_aspect_ratio (fill_volume (fill_area data)).

(** ** More of the bench *)

(** A turn on which [cap.read()] fails. *)
Definition failed_read : tick unit :=
  {| stop_requested := false; read := Returned None;
     datetime_now := 4; time_now := 0.16 |}.

(** The detector after a session of three frames showing [square], and
    the rows a logged-in user then saves from it, into a database that
    accepts them, with a request that leaves every key out. *)
Abbreviation short_session :=
  (run_calls sqrt_2dp (bench webcam [square]) [Start three_frames] (init 0 0))
  (only parsing).

Definition accept_rows : list live_row -> outcome unit := fun _ => Returned tt.

Definition bare_request : save_request :=
  {| req_location := None; req_polymer_type := None; req_color := None;
     req_density := None; req_transparency := None; req_sample_type := None |}.

Abbreviation saved_rows :=
  (snd (save_detected_particles live_sample_id accept_rows (Some 1%Z)
          (Some bare_request) (Some short_session)))
  (only parsing).

(** A second descriptor: the square, four times as large and rougher. *)
Definition enlarged_particle : particle :=
  {| contour := square_outline;
     area := 400;
     centroid := (10, 10)%Z;
     perimeter := 80;
     ellipse := Some ((10, 10), (23, 23), 0);
     major_axis := 23;
     minor_axis := 23;
     aspect_ratio := Some (2300000 # 2300001);
     angle := Some 0;
     circularity := 0.78;
     shape_type := "bead";
     convexity := 1;
     mean_intensity := Some 120;
     std_intensity := Some 45;
     texture_roughness := Some 3 |}.

(** A record posted with its length and width only. *)
Definition two_by_three : sample_data :=
  {| data_length := Some 2; data_width := Some 3; data_thickness := None;
     data_area := None; data_volume := None; data_aspect_ratio := None |}.

(** ** Theorems *)

(** *** Comparisons *)

Lemma ltb_spec (x y : Q) : reflect (x < y) (x <? y).
Proof.
  unfold ltb. destruct (Qle_bool y x) eqn:E; constructor.
  - apply Qle_bool_iff in E. lra.
  - destruct (Qlt_le_dec x y) as [Hlt|Hle]; [exact Hlt|].
    apply Qle_bool_iff in Hle. congruence.
Qed.

Lemma gtb_spec (x y : Q) : reflect (y < x) (x >? y).
Proof. apply ltb_spec. Qed.

Lemma leb_spec (x y : Q) : reflect (x <= y) (x <=? y).
Proof.
  unfold leb. destruct (Qle_bool x y) eqn:E; constructor.
  - now apply Qle_bool_iff.
  - intro H. apply Qle_bool_iff in H. congruence.
Qed.

Lemma geb_spec (x y : Q) : reflect (y <= x) (x >=? y).
Proof. apply leb_spec. Qed.

Lemma eqb_spec (x y : Q) : reflect (x == y) (x =? y).
Proof.
  destruct (Qeq_bool x y) eqn:E; constructor.
  - now apply Qeq_bool_iff.
  - intro H. apply Qeq_bool_iff in H. congruence.
Qed.

(** Case analysis on every comparison in sight, leaving the facts in
    the context. *)
Ltac compare :=
  repeat match goal with
    | |- context [?x <? ?y] => destruct (ltb_spec x y)
    | |- context [?x >? ?y] => destruct (gtb_spec x y)
    | |- context [?x <=? ?y] => destruct (leb_spec x y)
    | |- context [?x >=? ?y] => destruct (geb_spec x y)
    | |- context [?x =? ?y] => destruct (eqb_spec x y)
    end.

Lemma py_min_Qmin (a b : Q) : py_min a b == Qmin a b.
Proof.
  unfold py_min. compare.
  - symmetry. apply Q.min_r. lra.
  - symmetry. apply Q.min_l. lra.
Qed.

Lemma py_max_Qmax (a b : Q) : py_max a b == Qmax a b.
Proof.
  unfold py_max. compare.
  - symmetry. apply Q.max_r. lra.
  - symmetry. apply Q.max_l. lra.
Qed.

Lemma py_div_returns (a b : Q) : ~ b == 0 -> py_div a b = Returned (a / b).
Proof. intros H. unfold py_div. compare; [contradiction | reflexivity]. Qed.

(** *** The classifier and the circularity *)

(** C1.  The classifier is the function of (circularity, aspect_ratio)
    given by the priority list of the specification: over 0.7 and under
    1.3 is a bead, over 0.7 otherwise is spherical, then an aspect ratio
    over 3.0 is a fiber, over 1.5 a fragment, and anything else a film.
    The circularity is tested first. *)
Theorem classify_shape_priority (circularity0 aspect_ratio0 : Q) :
  classify_shape circularity0 aspect_ratio0
  = classify_shape_spec circularity0 aspect_ratio0.
Proof.
  unfold classify_shape, classify_shape_spec.
  destruct (circularity0 >? 0.7), (aspect_ratio0 <? 1.3); reflexivity.
Qed.

(** A round and elongated region is spherical, not a fiber: the
    circularity decides first. *)
Example classify_round_elongated : classify_shape 0.8 5.0 = "spherical".
Proof. reflexivity. Qed.

Example classify_thin_rectangle : classify_shape 0.1 40 = "fiber".
Proof. reflexivity. Qed.

Example classify_boundaries :
  classify_shape 0.7 1.5 = "film" /\ classify_shape 0.7 3.0 = "fragment"
  /\ classify_shape 0.71 1.3 = "spherical".
Proof. repeat split; reflexivity. Qed.

(** The classifier does not tell apart two representations of the same
    rational. *)
Lemma classify_shape_proper (c c' a a' : Q) :
  c == c' -> a == a' -> classify_shape c a = classify_shape c' a'.
Proof.
  intros Hc Ha. unfold classify_shape.
  compare; try reflexivity; exfalso; lra.
Qed.

Lemma classify_shape_range (c a : Q) :
  classify_shape c a ∈ ["bead"; "spherical"; "fiber"; "fragment"; "film"].
Proof.
  unfold classify_shape.
  destruct (c >? 0.7), (a <? 1.3), (a >? 3.0), (a >? 1.5); set_solver.
Qed.

Lemma square_nonzero (p : Q) : ~ p == 0 -> 0 < p * p.
Proof.
  intros H. destruct (Qlt_le_dec 0 p) as [Hp|Hp]; [nra|].
  assert (p < 0) by (destruct (Qeq_dec p 0); [contradiction | lra]).
  nra.
Qed.



(** *** The detection pipeline *)

Lemma bind_returned {A B : Type} (m : outcome A) (k : A -> outcome B) (b : B) :
  (m ≫= k) = Returned b -> exists a, m = Returned a /\ k a = Returned b.
Proof. destruct m as [a|e]; [eauto | discriminate]. Qed.

Ltac unbind H :=
  let a := fresh "v" in
  let E := fresh "E" in
  apply bind_returned in H as (a & E & H).

Tactic Notation "unbind_as" hyp(H) simple_intropattern(pat) :=
  let E := fresh "E" in
  apply bind_returned in H as (pat & E & H).

Section DetectionFacts.
Context {frame image : Type}.
Variable np_sqrt : Q -> Q.
Variable cv : cv2 frame image.
Variable self : detector frame.
Variable frame0 : frame.

(** What is known of a descriptor the loop body hands out. *)
Lemma analyse_contour_some (gray : image) (c : contour_t) (p : particle) :
  analyse_contour np_sqrt cv self frame0 gray c = Returned (Some p) ->
  exists r,
    contour p = c
    /\ contourArea cv c = Returned (area p)
    /\ (area p <? min_particle_size self) || (area p >? max_particle_size self)
       = false
    /\ ellipse_keys np_sqrt cv c (area p)
       = Returned (ellipse p, major_axis p, minor_axis p, r, angle p)
    /\ aspect_ratio p = Some r
    /\ calculate_circularity (area p) (perimeter p) = Returned (circularity p)
    /\ shape_type p = classify_shape (circularity p) r.
Proof.
  unfold analyse_contour. intros H.
  unbind H.
  destruct (_ || _) eqn:Hsize in H; [discriminate|].
  unbind H.
  destruct (m00 v0 =? 0); [discriminate|].
  do 3 unbind H.
  unbind_as H [[[[e major] minor] r] ang].
  do 5 unbind H.
  unbind_as H [[mean0 std0] rough0].
  injection H as <-. simpl. exists r. repeat split; auto.
Qed.
Lemma for_contours_kept (gray : image) (contours : list contour_t)
    (acc : list particle) :
  snd (for_contours np_sqrt cv self frame0 gray contours acc)
  = acc ++ kept_before_failure
             (map (analyse_contour np_sqrt cv self frame0 gray) contours).
Proof.
  revert acc. induction contours as [|c rest IH]; intros acc; simpl.
  - now rewrite app_nil_r.
  - destruct (analyse_contour np_sqrt cv self frame0 gray c) as [[info|]|e];
      simpl.
    + rewrite IH, <- app_assoc. reflexivity.
    + apply IH.
    + now rewrite app_nil_r.
Qed.

Lemma detect_particles_body :
  detect_particles np_sqrt cv self frame0
  = snd (detect_body np_sqrt cv self frame0 []).
Proof.
  unfold detect_particles.
  destruct (detect_body np_sqrt cv self frame0 []) as [[u|e] l]; reflexivity.
Qed.

Lemma kept_before_failure_elem (results : list (outcome (option particle)))
    (p : particle) :
  p ∈ kept_before_failure results -> Returned (Some p) ∈ results.
Proof.
  induction results as [|[[info|]|e] rest IH]; simpl; intros H.
  - inversion H.
  - apply elem_of_cons in H as [->|H]; [left | right; auto].
  - right; auto.
  - inversion H.
Qed.

(** Every descriptor returned was handed out by the loop body on one of
    the contours of the frame. *)
Lemma detect_particles_elem (p : particle) :
  p ∈ detect_particles np_sqrt cv self frame0 ->
  exists gray c,
    analyse_contour np_sqrt cv self frame0 gray c = Returned (Some p).
Proof.
  rewrite detect_particles_body. unfold detect_body.
  destruct (preprocess cv frame0) as [[gray contours]|e]; simpl.
  - rewrite for_contours_kept. simpl. intros H.
    apply kept_before_failure_elem, list_elem_of_fmap in H as (c & Hc & _).
    eauto.
  - intros H. inversion H.
Qed.

(** C3.  Every descriptor returned for a frame has its area within the
    inclusive bounds [min_particle_size], [max_particle_size] of the
    detector: a contour whose area is outside them is skipped. *)
Theorem detect_particles_area_bounds (p : particle) :
  p ∈ detect_particles np_sqrt cv self frame0 ->
  min_particle_size self <= area p <= max_particle_size self.
Proof.
  intros H. apply detect_particles_elem in H as (gray & c & H).
  apply analyse_contour_some in H as (r & _ & _ & Hsize & _).
  apply orb_false_elim in Hsize as [Hlo Hhi].
  destruct (ltb_spec (area p) (min_particle_size self)); [discriminate|].
  destruct (gtb_spec (area p) (max_particle_size self)); [discriminate|].
  lra.
Qed.

Lemma ellipse_keys_returned (c : contour_t) (a : Q) (e : option ellipse_t)
    (major minor r : Q) (ang : option Q) :
  ellipse_keys np_sqrt cv c a = Returned (e, major, minor, r, ang) ->
  match e with
  | None => (length c < 5)%nat /\ r = 1.0
  | Some (_, (w, h), _) =>
      (5 <= length c)%nat
      /\ major = py_max w h /\ minor = py_min w h
      /\ ~ minor + eps == 0 /\ r = major / (minor + eps)
  end.
Proof.
  unfold ellipse_keys. destruct (Nat.leb_spec 5 (length c)) as [Hlen|Hlen].
  - intros H. unbind_as H [[centre [w h]] theta]. simpl in H.
    unbind H. injection H as <- <- <- <- _. simpl.
    unfold py_div in E0. destruct (eqb_spec (py_min w h + eps) 0) as [|Hnz];
      [discriminate|].
    injection E0 as <-. auto.
  - intros H. injection H as <- _ _ <- _. auto.
Qed.

(** C5, as the code has it.  The aspect ratio of a descriptor is 1.0
    when its contour has fewer than 5 points; otherwise it is the longer
    fitted axis divided by the shorter one plus 1e-5.  It is therefore
    at least 1 exactly when the two axes differ by at least 1e-5 (for a
    non-negative shorter axis), and not in general. *)
Theorem aspect_ratio_by_construction (p : particle) :
  p ∈ detect_particles np_sqrt cv self frame0 ->
  exists r,
    aspect_ratio p = Some r
    /\ match ellipse p with
       | None => (length (contour p) < 5)%nat /\ r = 1.0
       | Some (_, (w, h), _) =>
           (5 <= length (contour p))%nat
           /\ major_axis p == Qmax w h
           /\ minor_axis p == Qmin w h
           /\ r * (minor_axis p + eps) == major_axis p
           /\ (0 <= minor_axis p ->
               (1 <= r <-> minor_axis p + eps <= major_axis p))
       end.
Proof.
  intros H. apply detect_particles_elem in H as (gray & c & H).
  apply analyse_contour_some in H as (r & Hc & _ & _ & Hkeys & Hr & _).
  exists r. split; [exact Hr|].
  apply ellipse_keys_returned in Hkeys. rewrite Hc.
  destruct (ellipse p) as [[[centre [w h]] theta]|]; [|exact Hkeys].
  destruct Hkeys as (Hlen & Hmajor & Hminor & Hnz & ->).
  split; [exact Hlen|].
  split; [rewrite Hmajor; apply py_max_Qmax|].
  split; [rewrite Hminor; apply py_min_Qmin|].
  split; [field; exact Hnz|].
  intros Hpos. assert (0 < minor_axis p + eps) by (unfold eps; lra).
  split; intros Hle.
  - apply (Qmult_le_compat_r _ _ (minor_axis p + eps)) in Hle; [|lra].
    rewrite Qmult_1_l in Hle.
    assert (Heq : major_axis p / (minor_axis p + eps) * (minor_axis p + eps)
                  == major_axis p) by (field; exact Hnz).
    lra.
  - apply Qle_shift_div_l; [assumption | lra].
Qed.

(** C7, as the code has it.  [detect_particles] returns a list for every
    frame, whatever raises inside it.  A failure before the contours are
    extracted gives the empty list; a failure on a contour stops the
    loop and gives the descriptors appended up to there. *)
Theorem detect_particles_keeps_prefix :
  match preprocess cv frame0 with
  | Raised _ => detect_particles np_sqrt cv self frame0 = []
  | Returned (gray, contours) =>
      detect_particles np_sqrt cv self frame0
      = kept_before_failure
          (map (analyse_contour np_sqrt cv self frame0 gray) contours)
  end.
Proof.
  rewrite detect_particles_body. unfold detect_body.
  destruct (preprocess cv frame0) as [[gray contours]|e]; simpl.
  - apply for_contours_kept.
  - reflexivity.
Qed.
End DetectionFacts.

(** *** The pipeline on the bench *)

Lemma square_detected :
  detect_particles sqrt_2dp (bench webcam [square]) fresh tt = [square_particle].
Proof. vm_compute. reflexivity. Qed.

Lemma detect_particles_area_bounds_witness :
  square_particle ∈ detect_particles sqrt_2dp (bench webcam [square]) fresh tt
  /\ min_particle_size fresh <= area square_particle <= max_particle_size fresh.
Proof.
  assert (H : square_particle
              ∈ detect_particles sqrt_2dp (bench webcam [square]) fresh tt)
    by (vm_compute; left).
  split; [exact H|].
  exact (detect_particles_area_bounds sqrt_2dp (bench webcam [square])
           fresh tt square_particle H).
Defined.

(** C5, as the claim states it, fails: a contour whose fitted axes are
    equal gets an aspect ratio below 1. *)
Lemma aspect_ratio_below_one :
  square_particle ∈ detect_particles sqrt_2dp (bench webcam [square]) fresh tt
  /\ major_axis square_particle == minor_axis square_particle
  /\ exists r, aspect_ratio square_particle = Some r /\ ~ 1.0 <= r.
Proof.
  split; [vm_compute; left|].
  split; [reflexivity|].
  eexists. split; [reflexivity|]. vm_compute. intros H. apply H. reflexivity.
Qed.

Lemma aspect_ratio_by_construction_witness :
  exists r,
    aspect_ratio square_particle = Some r
    /\ (5 <= length (contour square_particle))%nat
    /\ r * (minor_axis square_particle + eps) == major_axis square_particle.
Proof.
  assert (H : square_particle
              ∈ detect_particles sqrt_2dp (bench webcam [square]) fresh tt)
    by (vm_compute; left).
  destruct (aspect_ratio_by_construction sqrt_2dp (bench webcam [square])
              fresh tt square_particle H) as (r & Hr & Hlen & _ & _ & Hmul & _).
  exists r. auto.
Defined.

(** C7, as the claim states it, fails: the ellipse fit raises on the
    second contour of the frame, and the list returned still holds the
    descriptor of the first. *)
Lemma detect_particles_failure_not_empty :
  fst (detect_body sqrt_2dp (bench webcam [square; sliver]) fresh tt [])
  = Raised "cv2.error"
  /\ detect_particles sqrt_2dp (bench webcam [square; sliver]) fresh tt
     = [square_particle]
  /\ detect_particles sqrt_2dp (bench webcam [square; sliver]) fresh tt <> [].
Proof.
  split; [vm_compute; reflexivity|].
  assert (H : detect_particles sqrt_2dp (bench webcam [square; sliver]) fresh tt
              = [square_particle]) by (vm_compute; reflexivity).
  split; [exact H|]. rewrite H. discriminate.
Qed.

(** *** Aggregation *)

(** C4, what the code returns on the empty collection: no exception, a
    count of 0, an empty size histogram, an empty shape histogram, and no
    ["roughness_distribution"] entry at all, although the branch for a
    non-empty collection has one. *)
Theorem quantify_particles_empty (np_sqrt : Q -> Q) :
  let result := quantify_particles np_sqrt [] in
  int_at "count" result = Some 0%Z
  /\ hist_at "size_distribution" result = Some ∅
  /\ hist_at "shape_distribution" result = Some ∅
  /\ result !! "roughness_distribution" = None
  /\ hist_at "roughness_distribution" result = None.
Proof. repeat split; reflexivity. Qed.

Lemma sum_1_if_ext {A : Type} (f g : A -> bool) (xs : list A) :
  (forall x, f x = g x) -> sum_1_if f xs = sum_1_if g xs.
Proof.
  intros H. induction xs as [|x rest IH]; simpl; [reflexivity|].
  now rewrite H, IH.
Qed.

(** Conditions of which exactly one holds of every element split the
    count of the list. *)
Lemma sum_1_if_split {A : Type} (f g : A -> bool) (xs : list A) :
  (sum_1_if f xs + sum_1_if g xs
   = sum_1_if (fun x => f x || g x) xs + sum_1_if (fun x => f x && g x) xs)%nat.
Proof.
  induction xs as [|x rest IH]; simpl; [reflexivity|].
  destruct (f x), (g x); simpl; lia.
Qed.

Lemma sum_1_if_true {A : Type} (f : A -> bool) (xs : list A) :
  (forall x, f x = true) -> sum_1_if f xs = length xs.
Proof.
  intros H. induction xs as [|x rest IH]; simpl; [reflexivity|].
  now rewrite H, IH.
Qed.

Lemma sum_1_if_false {A : Type} (f : A -> bool) (xs : list A) :
  (forall x, f x = false) -> sum_1_if f xs = 0%nat.
Proof.
  intros H. induction xs as [|x rest IH]; simpl; [reflexivity|].
  now rewrite H, IH.
Qed.

Lemma sum_1_if_map {A B : Type} (f : B -> bool) (g : A -> B) (xs : list A) :
  sum_1_if f (map g xs) = sum_1_if (fun x => f (g x)) xs.
Proof.
  induction xs as [|x rest IH]; simpl; [reflexivity|]. now rewrite IH.
Qed.

(** The four size buckets. *)
Lemma size_buckets (areas : list Q) :
  (sum_1_if (fun a => (a <? 100)%py) areas
   + sum_1_if (fun a => ((100 <=? a) && (a <? 500))%py) areas
   + sum_1_if (fun a => ((500 <=? a) && (a <? 2000))%py) areas
   + sum_1_if (fun a => (a >=? 2000)%py) areas = length areas)%nat.
Proof.
  induction areas as [|a rest IH]; simpl; [reflexivity|].
  compare; simpl; try lia; exfalso; lra.
Qed.

(** The three roughness buckets of a value. *)
Lemma roughness_buckets {A : Type} (std : A -> Q) (xs : list A) :
  (sum_1_if (fun p => (std p <? 20)%py) xs
   + sum_1_if (fun p => ((20 <=? std p) && (std p <? 50))%py) xs
   + sum_1_if (fun p => (std p >=? 50)%py) xs = length xs)%nat.
Proof.
  induction xs as [|x rest IH]; simpl; [reflexivity|].
  compare; simpl; try lia; exfalso; lra.
Qed.

(** The sum of the bucket counts of a histogram. *)
Lemma hist_total_empty : hist_total ∅ = 0%nat.
Proof. apply map_fold_empty. Qed.

Lemma hist_total_insert_fresh (h : gmap string nat) (k : string) (n : nat) :
  h !! k = None -> hist_total (<[k := n]> h) = (n + hist_total h)%nat.
Proof.
  intros H. unfold hist_total. apply map_fold_insert_L; [|exact H].
  intros. lia.
Qed.

Lemma hist_total_delete (h : gmap string nat) (k : string) (n : nat) :
  h !! k = Some n -> hist_total h = (n + hist_total (delete k h))%nat.
Proof.
  intros H. unfold hist_total.
  apply (map_fold_delete_L (fun _ m total => (m + total)%nat)); [|exact H].
  intros. lia.
Qed.

Lemma hist_total_insert (h : gmap string nat) (k : string) (n : nat) :
  (hist_total (<[k := n]> h) + default 0 (h !! k) = n + hist_total h)%nat.
Proof.
  destruct (h !! k) as [m|] eqn:E; simpl.
  - rewrite (hist_total_delete h k m E), <- insert_delete_eq.
    rewrite hist_total_insert_fresh by apply lookup_delete_eq. lia.
  - rewrite hist_total_insert_fresh by exact E. lia.
Qed.

Lemma tally_total (shapes : list string) :
  hist_total (tally shapes) = length shapes.
Proof.
  induction shapes as [|s rest IH]; simpl; [apply hist_total_empty|].
  pose proof (hist_total_insert (tally rest) s
                (S (default 0%nat (tally rest !! s)))). lia.
Qed.

Lemma py_count_absent (s : string) (shapes : list string) :
  s ∉ shapes -> py_count s shapes = 0%nat.
Proof.
  unfold py_count. induction shapes as [|x rest IH]; simpl; [reflexivity|].
  intros H. apply not_elem_of_cons in H as [Hne Hrest].
  rewrite bool_decide_eq_false_2 by congruence. auto.
Qed.

Lemma tally_lookup (shapes : list string) (s : string) :
  tally shapes !! s
  = if decide (s ∈ shapes) then Some (py_count s shapes) else None.
Proof.
  induction shapes as [|x rest IH]; simpl.
  - rewrite lookup_empty. destruct (decide (s ∈ [])) as [H|]; [inversion H | done].
  - destruct (decide (x = s)) as [->|Hne].
    + rewrite lookup_insert_eq, IH.
      destruct (decide (s ∈ s :: rest)) as [_|Hn]; [|exfalso; apply Hn; left].
      unfold py_count at 2. simpl.
      rewrite bool_decide_eq_true_2 by reflexivity.
      destruct (decide (s ∈ rest)) as [|Hout]; simpl; [reflexivity|].
      f_equal. f_equal. symmetry. now apply py_count_absent.
    + rewrite lookup_insert_ne, IH by exact Hne.
      unfold py_count. simpl. rewrite bool_decide_eq_false_2 by exact Hne.
      destruct (decide (s ∈ rest)) as [Hin|Hout].
      * rewrite decide_True by (now right). reflexivity.
      * rewrite decide_False; [reflexivity|].
        intros H. apply elem_of_cons in H as [->|H]; [congruence | contradiction].
Qed.

Lemma foldl_insert_lookup (f : string -> nat) (keys : list string)
    (h : gmap string nat) (s : string) :
  foldl (fun d k => <[k := f k]> d) h keys !! s
  = if decide (s ∈ keys) then Some (f s) else h !! s.
Proof.
  revert h. induction keys as [|k rest IH]; intros h; simpl.
  - destruct (decide (s ∈ [])) as [H|]; [inversion H | done].
  - rewrite IH. destruct (decide (s ∈ rest)) as [Hin|Hout].
    + rewrite decide_True by (now right). reflexivity.
    + destruct (decide (k = s)) as [->|Hne].
      * rewrite lookup_insert_eq, decide_True by left. reflexivity.
      * rewrite lookup_insert_ne by exact Hne. rewrite decide_False; [reflexivity|].
        intros H. apply elem_of_cons in H as [->|H]; [congruence | contradiction].
Qed.

(** The shape histogram has one entry per category that occurs, holding
    its number of occurrences. *)
Lemma count_shapes_lookup (shapes : list string) (s : string) :
  count_shapes shapes !! s
  = if decide (s ∈ shapes) then Some (py_count s shapes) else None.
Proof.
  unfold count_shapes. rewrite foldl_insert_lookup, lookup_empty.
  destruct (decide (s ∈ shapes)) as [Hin|Hout].
  - rewrite decide_True; [reflexivity|].
    apply elem_of_elements, elem_of_list_to_set, Hin.
  - rewrite decide_False; [reflexivity|].
    intros H. apply elem_of_elements, elem_of_list_to_set in H. contradiction.
Qed.

Lemma count_shapes_tally (shapes : list string) :
  count_shapes shapes = tally shapes.
Proof.
  apply map_eq. intros s. now rewrite count_shapes_lookup, tally_lookup.
Qed.

Lemma count_shapes_total (shapes : list string) :
  hist_total (count_shapes shapes) = length shapes.
Proof. rewrite count_shapes_tally. apply tally_total. Qed.

(** C10.  On a non-empty collection each histogram splits the
    collection: the four size buckets add up to the count, the entries of
    the shape histogram add up to the count, and so do the three
    roughness buckets, where a particle without [std_intensity] counts
    with a deviation of 0, that is, as smooth. *)
Theorem histograms_partition (np_sqrt : Q -> Q) (particles0 : list particle) :
  particles0 <> [] ->
  let result := quantify_particles np_sqrt particles0 in
  let n := length particles0 in
  int_at "count" result = Some (Z.of_nat n)
  /\ (exists tiny small medium large : nat,
        hist_at "size_distribution" result
        = Some (list_to_map [("tiny", tiny); ("small", small);
                             ("medium", medium); ("large", large)])
        /\ (tiny + small + medium + large)%nat = n)
  /\ (exists shape_dist : gmap string nat,
        hist_at "shape_distribution" result = Some shape_dist
        /\ hist_total shape_dist = n)
  /\ (exists smooth rough weathered : nat,
        hist_at "roughness_distribution" result
        = Some (list_to_map [("smooth", smooth); ("rough", rough);
                             ("weathered", weathered)])
        /\ (smooth + rough + weathered)%nat = n
        /\ smooth
           = sum_1_if (fun p => match std_intensity p with
                                | None => true
                                | Some std => (std <? 20)%py
                                end) particles0).
Proof.
  intros Hne. destruct particles0 as [|p rest]; [contradiction|].
  clear Hne. intros result n. subst result n.
  set (ps := p :: rest).
  split; [reflexivity|].
  split.
  { do 4 eexists. split; [reflexivity|].
    rewrite size_buckets. apply length_map. }
  split.
  { eexists. split; [reflexivity|].
    rewrite count_shapes_total. apply length_map. }
  do 3 eexists. split; [reflexivity|].
  split; [apply (roughness_buckets (fun q => get (std_intensity q) 0))|].
  apply sum_1_if_ext. intros q. destruct (std_intensity q); reflexivity.
Qed.

Lemma histograms_partition_witness :
  int_at "count" (quantify_particles sqrt_2dp [square_particle; square_particle])
  = Some 2%Z
  /\ exists shape_dist : gmap string nat,
       hist_at "shape_distribution"
         (quantify_particles sqrt_2dp [square_particle; square_particle])
       = Some shape_dist
       /\ hist_total shape_dist = 2%nat.
Proof.
  assert (Hne : [square_particle; square_particle] <> []) by discriminate.
  destruct (histograms_partition sqrt_2dp [square_particle; square_particle] Hne)
    as (Hcount & _ & Hshape & _).
  split; [exact Hcount | exact Hshape].
Defined.

(** *** The bounded history *)

Lemma deque_append_maxlen {A : Type} (x : A) (d : deque A) :
  maxlen (deque_append x d) = maxlen d.
Proof. reflexivity. Qed.

Lemma deque_append_room {A : Type} (x : A) (d : deque A) :
  (length (items d) < maxlen d)%nat ->
  items (deque_append x d) = items d ++ [x].
Proof.
  intros H. unfold deque_append. simpl.
  destruct (Nat.ltb_spec (maxlen d) (length (items d ++ [x]))) as [Hlt|_];
    [|reflexivity].
  rewrite length_app in Hlt. simpl in Hlt. lia.
Qed.

Lemma deque_append_full {A : Type} (x : A) (d : deque A) :
  length (items d) = maxlen d -> (0 < maxlen d)%nat ->
  items (deque_append x d) = tail (items d) ++ [x].
Proof.
  intros Hfull Hpos. unfold deque_append. simpl.
  destruct (Nat.ltb_spec (maxlen d) (length (items d ++ [x]))) as [_|Hge].
  - destruct (items d) as [|y rest]; [simpl in Hfull; lia | reflexivity].
  - rewrite length_app in Hge. simpl in Hge. lia.
Qed.

Lemma deque_append_within {A : Type} (x : A) (d : deque A) :
  within_capacity d -> within_capacity (deque_append x d).
Proof.
  unfold within_capacity, deque_append. simpl. intros H.
  destruct (Nat.ltb_spec (maxlen d) (length (items d ++ [x]))) as [Hlt|Hge];
    [|exact Hge].
  destruct (items d) as [|y rest]; simpl in *; [lia|].
  rewrite length_app. simpl. lia.
Qed.

Lemma deque_clear_within {A : Type} (d : deque A) :
  within_capacity (deque_clear d).
Proof. unfold within_capacity. simpl. lia. Qed.

(** *** The capture loop *)

Section CaptureFacts.
Context {frame image : Type}.
Variable np_sqrt : Q -> Q.
Variable cv : cv2 frame image.

Lemma publish_history (t : tick frame) (frame0 : frame) (self : detector frame) :
  particle_history (snd (publish np_sqrt cv t frame0 self))
  = deque_append (snapshot_of np_sqrt cv t frame0 self) (particle_history self).
Proof. unfold publish. destruct (py_div _ _); reflexivity. Qed.

Lemma publish_particles (t : tick frame) (frame0 : frame)
    (self : detector frame) :
  particles (snd (publish np_sqrt cv t frame0 self))
  = detect_particles np_sqrt cv self frame0.
Proof. unfold publish. destruct (py_div _ _); reflexivity. Qed.

Lemma initialize_camera_keeps (self : detector frame) :
  let self' := snd (initialize_camera cv self) in
  is_running self' = is_running self
  /\ particles self' = particles self
  /\ particle_history self' = particle_history self
  /\ frame_count self' = frame_count self
  /\ current_frame self' = current_frame self.
Proof.
  unfold initialize_camera.
  destruct (VideoCapture cv (camera_id self)) as [device|e]; simpl; [|auto].
  destruct (isOpened device); simpl; auto.
Qed.

Lemma initialize_camera_fails (self : detector frame) :
  open_fails cv self -> fst (initialize_camera cv self) = false.
Proof.
  unfold open_fails, initialize_camera.
  destruct (VideoCapture cv (camera_id self)) as [device|e]; [|reflexivity].
  simpl. intros ->. reflexivity.
Qed.

Lemma release_camera_keeps (self : detector frame) :
  is_running (release_camera self) = is_running self
  /\ particles (release_camera self) = particles self
  /\ particle_history (release_camera self) = particle_history self.
Proof. unfold release_camera. destruct (cap self); simpl; auto. Qed.

(** A property of the history that appending and clearing preserve is
    preserved by every call on the detector. *)
Section HistoryInvariant.
Variable P : deque snapshot -> Prop.
Hypothesis P_append : forall x d, P d -> P (deque_append x d).
Hypothesis P_clear : forall d, P d -> P (deque_clear d).

Lemma while_running_history (schedule : list (tick frame))
    (self : detector frame) :
  P (particle_history self) ->
  P (particle_history (snd (while_running np_sqrt cv schedule self))).
Proof.
  revert self. induction schedule as [|t later IH]; intros self H; simpl;
    [exact H|].
  assert (Hstop : P (particle_history
                       (if stop_requested t then stop_capture self else self)))
    by (destruct (stop_requested t); exact H).
  destruct (negb (is_running _)); [exact Hstop|].
  destruct (read t) as [[frame0|]|e]; try exact Hstop.
  pose proof (publish_history t frame0
                (if stop_requested t then stop_capture self else self)) as Hp.
  destruct (publish np_sqrt cv t frame0 _) as [[u|e] self'] eqn:E;
    simpl in Hp.
  - apply IH. rewrite Hp. now apply P_append.
  - simpl. rewrite Hp. now apply P_append.
Qed.

Lemma capture_loop_history (schedule : list (tick frame))
    (self : detector frame) :
  P (particle_history self) ->
  P (particle_history (snd (capture_loop np_sqrt cv schedule self))).
Proof.
  intros H. unfold capture_loop.
  pose proof (initialize_camera_keeps self) as (_ & _ & Hh & _).
  destruct (initialize_camera cv self) as [opened self1]. simpl in Hh.
  destruct opened; simpl; [|now rewrite Hh].
  pose proof (while_running_history schedule (set_is_running true self1)) as Hw.
  destruct (while_running np_sqrt cv schedule (set_is_running true self1))
    as [[|] self2]; simpl in *.
  - apply Hw. now rewrite Hh.
  - pose proof (release_camera_keeps self2) as (_ & _ & Hr).
    rewrite Hr. apply Hw. now rewrite Hh.
Qed.

Lemma run_call_history (c : call frame) (self : detector frame) :
  P (particle_history self) ->
  P (particle_history (run_call np_sqrt cv self c)).
Proof.
  intros H. destruct c as [schedule| |]; simpl.
  - unfold start, start_capture. destruct (negb (is_running self)); simpl;
      [now apply capture_loop_history | exact H].
  - exact H.
  - now apply P_clear.
Qed.

Lemma run_calls_history (calls : list (call frame)) (self : detector frame) :
  P (particle_history self) ->
  P (particle_history (run_calls np_sqrt cv calls self)).
Proof.
  unfold run_calls. revert self.
  induction calls as [|c rest IH]; intros self H; simpl; [exact H|].
  apply IH. now apply run_call_history.
Qed.
End HistoryInvariant.

(** C6.  Whatever calls are made on a detector whose history is within
    its capacity, the capacity does not change and the history stays
    within it, before and after the next turn of the loop; and when the
    history is full, that turn drops the oldest snapshot and puts the
    new one last. *)
Theorem history_bounded_fifo (calls : list (call frame))
    (t : tick frame) (frame0 : frame) (self : detector frame) :
  within_capacity (particle_history self) ->
  let reached := run_calls np_sqrt cv calls self in
  let before := particle_history reached in
  let after := particle_history (snd (publish np_sqrt cv t frame0 reached)) in
  maxlen before = maxlen (particle_history self)
  /\ within_capacity before
  /\ maxlen after = maxlen before
  /\ within_capacity after
  /\ (length (items before) = maxlen before -> (0 < maxlen before)%nat ->
      items after
      = tail (items before) ++ [snapshot_of np_sqrt cv t frame0 reached])
  /\ ((length (items before) < maxlen before)%nat ->
      items after = items before ++ [snapshot_of np_sqrt cv t frame0 reached]).
Proof.
  intros Hinit reached before after.
  assert (Hinv : maxlen before = maxlen (particle_history self)
                 /\ within_capacity before).
  { subst before reached.
    apply (run_calls_history
             (fun d => maxlen d = maxlen (particle_history self)
                       /\ within_capacity d)).
    - intros x d [Hm Hw]. split; [exact Hm | now apply deque_append_within].
    - intros d [Hm _]. split; [exact Hm | apply deque_clear_within].
    - split; [reflexivity | exact Hinit]. }
  destruct Hinv as [Hmax Hwithin].
  assert (Hafter : after
                   = deque_append (snapshot_of np_sqrt cv t frame0 reached) before)
    by apply publish_history.
  rewrite Hafter.
  split; [exact Hmax|]. split; [exact Hwithin|].
  split; [reflexivity|]. split; [now apply deque_append_within|].
  split; [apply deque_append_full | apply deque_append_room].
Qed.

(** C8, as the code has it.  When the camera does not open,
    [start_capture] gives its caller [None], as it always does; the
    failure is the [False] of [initialize_camera], seen by the thread
    only.  The thread ends at once, without an exception, and
    [is_running], the particles, the history, the frame and the frame
    counter are what they were. *)
Theorem start_capture_open_failure (schedule : list (tick frame))
    (self : detector frame) :
  is_running self = false ->
  open_fails cv self ->
  let started := start np_sqrt cv schedule self in
  fst (start_capture self) = PyNone
  /\ fst started = PyNone
  /\ fst (initialize_camera cv self) = false
  /\ fst (capture_loop np_sqrt cv schedule self) = Finished
  /\ is_running (snd started) = false
  /\ particles (snd started) = particles self
  /\ particle_history (snd started) = particle_history self
  /\ frame_count (snd started) = frame_count self
  /\ current_frame (snd started) = current_frame self.
Proof.
  intros Hstopped Hfail started. subst started.
  unfold start, start_capture. rewrite Hstopped. simpl.
  pose proof (initialize_camera_fails self Hfail) as Hinit.
  pose proof (initialize_camera_keeps self) as (Hr & Hp & Hh & Hc & Hf).
  unfold capture_loop.
  destruct (initialize_camera cv self) as [opened self1]. simpl in *.
  subst opened. simpl.
  repeat split; congruence.
Qed.

(** C9.  [stop_capture] changes the flag and nothing else:
    [get_current_particles] gives the same list after it as before it,
    and after a turn of the loop on a frame that list is the one
    detected on that frame. *)
Theorem stop_capture_keeps_particles (t : tick frame) (frame0 : frame)
    (self : detector frame) :
  get_current_particles (stop_capture self) = get_current_particles self
  /\ is_running (stop_capture self) = false
  /\ particle_history (stop_capture self) = particle_history self
  /\ current_frame (stop_capture self) = current_frame self
  /\ frame_count (stop_capture self) = frame_count self
  /\ get_current_particles
       (stop_capture (snd (publish np_sqrt cv t frame0 self)))
     = detect_particles np_sqrt cv self frame0.
Proof.
  repeat split. apply publish_particles.
Qed.
End CaptureFacts.

(** *** The capture loop on the bench *)

Lemma history_bounded_fifo_witness :
  within_capacity (particle_history fresh)
  /\ maxlen (particle_history full_session) = 100%nat
  /\ length (items (particle_history full_session)) = 100%nat
  /\ items (particle_history
              (snd (publish sqrt_2dp (bench webcam [square]) next_frame tt
                      full_session)))
     = tail (items (particle_history full_session))
       ++ [snapshot_of sqrt_2dp (bench webcam [square]) next_frame tt
             full_session].
Proof.
  assert (Hfresh : within_capacity (particle_history fresh))
    by (unfold within_capacity; simpl; lia).
  assert (Hfull : length (items (particle_history full_session)) = 100%nat)
    by (vm_compute; reflexivity).
  destruct (history_bounded_fifo sqrt_2dp (bench webcam [square])
              [Start hundred_frames] next_frame tt fresh Hfresh)
    as (Hmax & _ & _ & _ & Hevict & _).
  split; [exact Hfresh|]. split; [exact Hmax|]. split; [exact Hfull|].
  apply Hevict; rewrite Hmax; [exact Hfull | simpl; lia].
Defined.

(** C8, as the claim states it, fails: with a camera that does not open,
    the caller of [start_capture] gets [None], the very value it gets
    with a camera that opens. *)
Lemma start_capture_reports_nothing :
  open_fails (bench no_webcam []) fresh
  /\ ~ open_fails (bench webcam [square]) fresh
  /\ fst (start sqrt_2dp (bench no_webcam []) three_frames fresh) = PyNone
  /\ fst (start sqrt_2dp (bench no_webcam []) three_frames fresh)
     = fst (start sqrt_2dp (bench webcam [square]) three_frames fresh)
  /\ forall b, fst (start sqrt_2dp (bench no_webcam []) three_frames fresh)
               <> PyBool b.
Proof.
  split; [reflexivity|].
  split; [simpl; discriminate|].
  split; [reflexivity|]. split; [reflexivity|]. discriminate.
Qed.

Lemma start_capture_open_failure_witness :
  is_running fresh = false
  /\ open_fails (bench no_webcam []) fresh
  /\ fst (start sqrt_2dp (bench no_webcam []) three_frames fresh) = PyNone
  /\ is_running (snd (start sqrt_2dp (bench no_webcam []) three_frames fresh))
     = false.
Proof.
  assert (Hstopped : is_running fresh = false) by reflexivity.
  assert (Hfail : open_fails (bench no_webcam []) fresh) by reflexivity.
  destruct (start_capture_open_failure sqrt_2dp (bench no_webcam [])
              three_frames fresh Hstopped Hfail)
    as (_ & Hnone & _ & _ & Hrun & _).
  auto.
Defined.

(** A session of three frames showing a square, then [stop_capture]: the
    list read back is the one of the last frame. *)
Example stop_after_three_frames :
  get_current_particles
    (run_calls sqrt_2dp (bench webcam [square]) [Start three_frames; Stop] fresh)
  = [square_particle].
Proof. vm_compute. reflexivity. Qed.

(** ** Further properties of the code *)

(** *** What a descriptor of the pipeline looks like *)

Lemma calculate_circularity_range (area0 perimeter0 c : Q) :
  0 <= area0 ->
  calculate_circularity area0 perimeter0 = Returned c ->
  0 <= c <= 1.
Proof.
  intros Harea. unfold calculate_circularity.
  destruct (eqb_spec perimeter0 0) as [Hz|Hnz].
  - intros H. injection H as <-. lra.
  - pose proof (square_nonzero _ Hnz) as Hsq.
    assert (Hpow : perimeter0 ^ 2 == perimeter0 * perimeter0)
      by (simpl; reflexivity).
    assert (Hpos : 0 < perimeter0 ^ 2) by (rewrite Hpow; exact Hsq).
    rewrite py_div_returns by lra.
    intros H. injection H as <-. rewrite py_min_Qmin. split.
    + apply Q.min_glb; [|lra].
      apply Qle_shift_div_l; [exact Hpos|].
      assert (0 < np_pi) by reflexivity. nra.
    + apply (Qle_trans _ 1.0); [apply Q.le_min_r | lra].
Qed.

Section DescriptorFacts.
Context {frame image : Type}.
Variable np_sqrt : Q -> Q.
Variable cv : cv2 frame image.
Variable self : detector frame.
Variable frame0 : frame.

(** The later steps of the loop body, for a descriptor it hands out. *)
Lemma analyse_contour_measured (gray : image) (c : contour_t) (p : particle) :
  analyse_contour np_sqrt cv self frame0 gray c = Returned (Some p) ->
  exists (M : moments_t) (hull : contour_t) (hull_area : Q) (region : list Q),
    moments cv c = Returned M
    /\ ~ m00 M == 0
    /\ centroid p = (py_int (m10 M / m00 M), py_int (m01 M / m00 M))
    /\ arcLength cv c = Returned (perimeter p)
    /\ convexHull cv c = Returned hull
    /\ contourArea cv hull = Returned hull_area
    /\ py_div (area p) (hull_area + eps) = Returned (convexity p)
    /\ region_pixels cv frame0 gray c = Returned region
    /\ intensity_keys np_sqrt region
       = Returned (mean_intensity p, std_intensity p, texture_roughness p).
Proof.
  unfold analyse_contour. intros H.
  unbind H.
  destruct (_ || _) eqn:Hsize in H; [discriminate|].
  unbind H.
  match type of H with
  | context [m00 ?M =? 0] => destruct (eqb_spec (m00 M) 0) as [|Hm00]
  end; [discriminate|].
  do 3 unbind H.
  unbind_as H [[[[e major] minor] r] ang].
  do 5 unbind H.
  unbind_as H [[mean0 std0] rough0].
  injection H as <-. simpl.
  repeat match goal with
         | E : py_div _ (m00 _) = Returned _ |- _ =>
             rewrite py_div_returns in E by exact Hm00; injection E as <-
         end.
  eauto 15.
Qed.

(** The keys written in groups are present in groups. *)
Lemma ellipse_keys_angle (c : contour_t) (a : Q) (e : option ellipse_t)
    (major minor r : Q) (ang : option Q) :
  ellipse_keys np_sqrt cv c a = Returned (e, major, minor, r, ang) ->
  match e with
  | None => ang = None /\ major = np_sqrt a /\ minor = np_sqrt a
            /\ (length c < 5)%nat
  | Some fitted => ang = Some (snd fitted) /\ fitEllipse cv c = Returned fitted
                   /\ (5 <= length c)%nat
  end.
Proof.
  unfold ellipse_keys. destruct (Nat.leb_spec 5 (length c)) as [Hlen|Hlen].
  - intros H. unbind H. simpl in H. unbind H.
    injection H as <- _ _ _ <-. auto.
  - intros H. injection H as <- <- <- _ <-. auto.
Qed.

Lemma intensity_keys_together (region : list Q) (m s r : option Q) :
  intensity_keys np_sqrt region = Returned (m, s, r) ->
  (is_Some m /\ is_Some s /\ is_Some r /\ (2 <= length region)%nat)
  \/ (m = None /\ s = None /\ r = None /\ region = []).
Proof.
  unfold intensity_keys. destruct region as [|x0 [|x1 rest]]; simpl.
  - intros H. injection H as <- <- <-. auto.
  - discriminate.
  - intros H. unbind H. injection H as <- <- <-. left.
    repeat split; eauto; lia.
Qed.

(** X1.  With a non-negative lower size bound, the circularity of every
    descriptor returned lies between 0 and 1. *)
Theorem detected_circularity_range (p : particle) :
  0 <= min_particle_size self ->
  p ∈ detect_particles np_sqrt cv self frame0 ->
  0 <= circularity p <= 1.
Proof.
  intros Hmin H. apply detect_particles_elem in H as (gray & c & H).
  apply analyse_contour_some in H as (r & _ & _ & Hsize & _ & _ & Hcirc & _).
  apply orb_false_elim in Hsize as [Hlo _].
  destruct (ltb_spec (area p) (min_particle_size self)); [discriminate|].
  apply (calculate_circularity_range (area p) (perimeter p)); [lra | exact Hcirc].
Qed.

(** X2.  The shape label of every descriptor returned is the classifier
    applied to the circularity and the aspect ratio stored in that same
    descriptor, and is one of the five categories. *)
Theorem detected_shape_type (p : particle) :
  p ∈ detect_particles np_sqrt cv self frame0 ->
  shape_type p = classify_shape (circularity p) (get (aspect_ratio p) 1.0)
  /\ shape_type p ∈ ["bead"; "spherical"; "fiber"; "fragment"; "film"].
Proof.
  intros H. apply detect_particles_elem in H as (gray & c & H).
  apply analyse_contour_some in H as (r & _ & _ & _ & _ & Hr & _ & Hshape).
  rewrite Hr. simpl. split; [exact Hshape|].
  rewrite Hshape. apply classify_shape_range.
Qed.


Lemma kept_before_failure_sublist (gray : image) (contours : list contour_t) :
  map contour
      (kept_before_failure
         (map (analyse_contour np_sqrt cv self frame0 gray) contours))
    `sublist_of` contours.
Proof.
  induction contours as [|c rest IH]; simpl; [constructor|].
  destruct (analyse_contour np_sqrt cv self frame0 gray c) as [[info|]|e] eqn:E;
    simpl.
  - apply analyse_contour_some in E as (r & -> & _). now constructor.
  - now constructor.
  - apply sublist_nil_l.
Qed.

(** X4.  The descriptors returned for a frame follow the order in which
    the contours were found, with at most one descriptor per contour:
    their contours form a subsequence of the contours of the frame. *)
Theorem detected_in_contour_order (gray : image) (contours : list contour_t) :
  preprocess cv frame0 = Returned (gray, contours) ->
  map contour (detect_particles np_sqrt cv self frame0) `sublist_of` contours
  /\ (length (detect_particles np_sqrt cv self frame0) <= length contours)%nat.
Proof.
  intros Hpre.
  assert (Hsub : map contour (detect_particles np_sqrt cv self frame0)
                   `sublist_of` contours).
  { rewrite detect_particles_body. unfold detect_body. rewrite Hpre.
    rewrite for_contours_kept. simpl. apply kept_before_failure_sublist. }
  split; [exact Hsub|].
  apply sublist_length in Hsub. now rewrite length_map in Hsub.
Qed.
End DescriptorFacts.

(** *** The statistics of [quantify_particles] *)

Lemma foldl_Qmin_le (m : Q) (a : list Q) :
  foldl Qmin m a <= m /\ forall x, x ∈ a -> foldl Qmin m a <= x.
Proof.
  revert m. induction a as [|y rest IH]; intros m; simpl.
  - split; [lra|]. intros x H. inversion H.
  - destruct (IH (Qmin m y)) as [Hm Hrest].
    pose proof (Q.le_min_l m y). pose proof (Q.le_min_r m y).
    split; [lra|]. intros x H'. apply elem_of_cons in H' as [->|H'];
      [lra | auto].
Qed.

Lemma foldl_Qmax_ge (m : Q) (a : list Q) :
  m <= foldl Qmax m a /\ forall x, x ∈ a -> x <= foldl Qmax m a.
Proof.
  revert m. induction a as [|y rest IH]; intros m; simpl.
  - split; [lra|]. intros x H. inversion H.
  - destruct (IH (Qmax m y)) as [Hm Hrest].
    pose proof (Q.le_max_l m y). pose proof (Q.le_max_r m y).
    split; [lra|]. intros x H'. apply elem_of_cons in H' as [->|H'];
      [lra | auto].
Qed.

Lemma np_min_le (a : list Q) (x : Q) : x ∈ a -> np_min a <= x.
Proof.
  destruct a as [|y rest]; [intros H; inversion H|]. simpl.
  destruct (foldl_Qmin_le y rest) as [Hy Hrest].
  intros H. apply elem_of_cons in H as [->|H]; auto.
Qed.

Lemma np_max_ge (a : list Q) (x : Q) : x ∈ a -> x <= np_max a.
Proof.
  destruct a as [|y rest]; [intros H; inversion H|]. simpl.
  destruct (foldl_Qmax_ge y rest) as [Hy Hrest].
  intros H. apply elem_of_cons in H as [->|H]; auto.
Qed.

Lemma size_of_cons (x : Q) (a : list Q) : size_of (x :: a) == size_of a + 1.
Proof.
  unfold size_of. simpl length. rewrite Nat2Z.inj_succ, <- Z.add_1_r.
  rewrite inject_Z_plus. reflexivity.
Qed.

Lemma size_of_pos (a : list Q) : a <> [] -> 0 < size_of a.
Proof.
  destruct a as [|x rest]; [congruence|]. intros _.
  assert (Hrest : 0 <= size_of rest).
  { unfold size_of. change 0 with (inject_Z 0). rewrite <- Zle_Qle. lia. }
  pose proof (size_of_cons x rest) as Hcons. lra.
Qed.

Lemma np_sum_bounds (a : list Q) (lo hi : Q) :
  (forall x, x ∈ a -> lo <= x <= hi) ->
  size_of a * lo <= np_sum a <= size_of a * hi.
Proof.
  induction a as [|y rest IH]; intros H.
  - assert (Hz : size_of [] == 0) by reflexivity.
    change (np_sum []) with 0. rewrite Hz. lra.
  - rewrite size_of_cons. change (np_sum (y :: rest)) with (y + np_sum rest).
    assert (lo <= y <= hi) by (apply H; left).
    assert (size_of rest * lo <= np_sum rest <= size_of rest * hi)
      by (apply IH; intros x Hx; apply H; now right).
    lra.
Qed.

Lemma np_mean_times_size (a : list Q) :
  a <> [] -> np_mean a * size_of a == np_sum a.
Proof.
  intros H. apply size_of_pos in H. unfold np_mean. fold (size_of a).
  field. lra.
Qed.

Lemma np_mean_bounds (a : list Q) (lo hi : Q) :
  a <> [] -> (forall x, x ∈ a -> lo <= x <= hi) -> lo <= np_mean a <= hi.
Proof.
  intros Hne H. pose proof (size_of_pos a Hne) as Hn.
  pose proof (np_sum_bounds a lo hi H) as [Hlo Hhi].
  unfold np_mean. fold (size_of a). split.
  - apply Qle_shift_div_l; [exact Hn | lra].
  - apply Qle_shift_div_r; [exact Hn | lra].
Qed.

Lemma insert_sorted_elem (x y : Q) (a : list Q) :
  y ∈ insert_sorted x a <-> y = x \/ y ∈ a.
Proof.
  induction a as [|z rest IH]; simpl.
  - rewrite list_elem_of_singleton.
    split; [auto | intros [H|H]; [exact H | inversion H]].
  - destruct (x <=? z); rewrite !elem_of_cons; [tauto|].
    rewrite IH. tauto.
Qed.

Lemma insert_sorted_length (x : Q) (a : list Q) :
  length (insert_sorted x a) = S (length a).
Proof.
  induction a as [|z rest IH]; simpl; [reflexivity|].
  destruct (x <=? z); simpl; [reflexivity | now rewrite IH].
Qed.

Lemma np_sort_elem (a : list Q) (y : Q) : y ∈ np_sort a <-> y ∈ a.
Proof.
  unfold np_sort. induction a as [|x rest IH]; simpl; [reflexivity|].
  rewrite insert_sorted_elem, elem_of_cons, IH. reflexivity.
Qed.

Lemma np_sort_length (a : list Q) : length (np_sort a) = length a.
Proof.
  unfold np_sort. induction a as [|x rest IH]; simpl; [reflexivity|].
  now rewrite insert_sorted_length, IH.
Qed.

(** A sample of the sorted array lies between the extremes. *)
Lemma sorted_sample_bounds (a : list Q) (i : nat) :
  (i < length a)%nat -> np_min a <= nth i (np_sort a) 0 <= np_max a.
Proof.
  intros Hi.
  assert (Hin : nth i (np_sort a) 0 ∈ a).
  { apply np_sort_elem, list_elem_of_In, nth_In. now rewrite np_sort_length. }
  split; [now apply np_min_le | now apply np_max_ge].
Qed.

Lemma np_median_bounds (a : list Q) :
  a <> [] -> np_min a <= np_median a <= np_max a.
Proof.
  intros Hne. unfold np_median.
  assert (Hn : (0 < length a)%nat) by (destruct a; [congruence | simpl; lia]).
  assert (Hhalf : (length a / 2 < length a)%nat) by (apply Nat.div_lt; lia).
  pose proof (sorted_sample_bounds a (length a / 2) Hhalf) as Hmid.
  destruct (Nat.even (length a)); [|exact Hmid].
  assert (Hprev : (length a / 2 - 1 < length a)%nat) by lia.
  pose proof (sorted_sample_bounds a (length a / 2 - 1) Hprev) as Hlow.
  split.
  - apply Qle_shift_div_l; lra.
  - apply Qle_shift_div_r; lra.
Qed.

Lemma np_percentile_bounds (a : list Q) (q : Q) :
  a <> [] -> 0 <= q <= 100 -> np_min a <= np_percentile a q <= np_max a.
Proof.
  intros Hne Hq. unfold np_percentile.
  assert (Hn : (0 < length a)%nat) by (destruct a; [congruence | simpl; lia]).
  set (top := inject_Z (Z.of_nat (length a - 1))).
  set (rank := top * q / 100).
  assert (Htop : 0 <= top).
  { unfold top. change 0 with (inject_Z 0). rewrite <- Zle_Qle. lia. }
  assert (Hrank : 0 <= rank <= top).
  { unfold rank. split.
    - apply Qle_shift_div_l; [lra | nra].
    - apply Qle_shift_div_r; [lra | nra]. }
  assert (Hfloor0 : (0 <= Qfloor rank)%Z).
  { change 0%Z with (Qfloor 0). apply Qfloor_resp_le. lra. }
  assert (Hfloor1 : (Qfloor rank <= Z.of_nat (length a - 1))%Z).
  { rewrite <- (Qfloor_Z (Z.of_nat (length a - 1))).
    apply Qfloor_resp_le. fold top. lra. }
  set (below := Z.to_nat (Qfloor rank)).
  assert (Hbelow : (below < length a)%nat) by (unfold below; lia).
  assert (Habove : (Nat.min (below + 1) (length a - 1) < length a)%nat) by lia.
  assert (Hcast : inject_Z (Z.of_nat below) == inject_Z (Qfloor rank)).
  { unfold below. now rewrite Z2Nat.id. }
  pose proof (Qfloor_le rank) as Hle. pose proof (Qlt_floor rank) as Hlt.
  rewrite inject_Z_plus in Hlt. change (inject_Z 1) with 1 in Hlt.
  pose proof (sorted_sample_bounds a below Hbelow) as [Hb1 Hb2].
  pose proof (sorted_sample_bounds a _ Habove) as [Ha1 Ha2].
  set (lower := nth below (np_sort a) 0) in *.
  set (upper := nth (Nat.min (below + 1) (length a - 1)) (np_sort a) 0) in *.
  set (fraction := rank - inject_Z (Z.of_nat below)).
  assert (Hfrac : 0 <= fraction <= 1) by (unfold fraction; lra).
  split; nra.
Qed.

Lemma areas_nonempty (particles0 : list particle) :
  particles0 <> [] -> map area particles0 <> [].
Proof. destruct particles0; [congruence | discriminate]. Qed.



Lemma py_count_present (s : string) (shapes : list string) :
  s ∈ shapes -> (1 <= py_count s shapes)%nat.
Proof.
  unfold py_count. induction shapes as [|x rest IH]; intros H; [inversion H|].
  simpl. destruct (bool_decide (x = s)) eqn:E; [lia|].
  apply bool_decide_eq_false in E.
  apply elem_of_cons in H as [->|H]; [congruence | auto].
Qed.

(** X7.  On a non-empty collection the shape histogram has a key for
    exactly the shape labels that occur in the collection, and the value
    under a key is the number of particles with that label, at least 1. *)
Theorem shape_distribution_keys (np_sqrt : Q -> Q) (particles0 : list particle) :
  particles0 <> [] ->
  exists shape_dist : gmap string nat,
    hist_at "shape_distribution" (quantify_particles np_sqrt particles0)
    = Some shape_dist
    /\ (forall s, s ∈ map shape_type particles0 <-> is_Some (shape_dist !! s))
    /\ (forall s k, shape_dist !! s = Some k ->
          k = py_count s (map shape_type particles0) /\ (1 <= k)%nat).
Proof.
  intros Hne. destruct particles0 as [|p rest]; [contradiction|]. clear Hne.
  set (ps := p :: rest). exists (count_shapes (map shape_type ps)).
  split; [reflexivity|]. split.
  - intros s. rewrite count_shapes_lookup.
    destruct (decide (s ∈ map shape_type ps)) as [Hin|Hout].
    + split; [eauto | intros _; exact Hin].
    + split; [contradiction | intros [k Hk]; discriminate].
  - intros s k. rewrite count_shapes_lookup.
    destruct (decide (s ∈ map shape_type ps)) as [Hin|Hout]; [|discriminate].
    intros H. injection H as <-. split; [reflexivity | now apply py_count_present].
Qed.

(** X8.  In the dict of [get_statistics] the current particle count and
    the count inside the quantification are the same number, for an empty
    particle list as for a non-empty one. *)
Theorem statistics_counts_agree {frame : Type} (np_sqrt : Q -> Q)
    (self : detector frame) :
  int_at "count" (stat_quantification (get_statistics np_sqrt self))
  = Some (Z.of_nat (stat_current_particle_count (get_statistics np_sqrt self)))
  /\ stat_current_particle_count (get_statistics np_sqrt self)
     = length (get_current_particles self)
  /\ stat_quantification (get_statistics np_sqrt self)
     = get_quantification np_sqrt self.
Proof.
  unfold get_statistics, get_quantification, get_current_particles. simpl.
  destruct (particles self) as [|p rest]; repeat split; reflexivity.
Qed.

(** *** The capture loop, turn by turn *)

Section LoopFacts.
Context {frame image : Type}.
Variable np_sqrt : Q -> Q.
Variable cv : cv2 frame image.

(** What a turn leaves alone, and what it does to the counter. *)
Lemma publish_keeps (t : tick frame) (frame0 : frame) (self : detector frame) :
  let self' := snd (publish np_sqrt cv t frame0 self) in
  is_running self' = is_running self
  /\ cap self' = cap self
  /\ camera_id self' = camera_id self
  /\ min_particle_size self' = min_particle_size self
  /\ max_particle_size self' = max_particle_size self
  /\ (frame_count self <= frame_count self')%Z.
Proof.
  unfold publish. destruct (py_div _ _); simpl; repeat split; lia.
Qed.

(** A property of the detector that assignments to [cap] and
    [is_running], a turn of the loop and clearing the history preserve is
    preserved by every call. *)
Section StateInvariant.
Variable Inv : detector frame -> Prop.
Hypothesis Inv_cap : forall c self, Inv self -> Inv (set_cap c self).
Hypothesis Inv_running : forall b self, Inv self -> Inv (set_is_running b self).
Hypothesis Inv_publish : forall t frame0 self,
  Inv self -> Inv (snd (publish np_sqrt cv t frame0 self)).
Hypothesis Inv_clear : forall self,
  Inv self -> Inv (set_particle_history (deque_clear (particle_history self)) self).

Lemma while_running_invariant (schedule : list (tick frame))
    (self : detector frame) :
  Inv self -> Inv (snd (while_running np_sqrt cv schedule self)).
Proof.
  revert self. induction schedule as [|t later IH]; intros self H; simpl;
    [exact H|].
  assert (Hstop : Inv (if stop_requested t then stop_capture self else self))
    by (destruct (stop_requested t); [apply Inv_running|]; exact H).
  destruct (negb (is_running _)); [exact Hstop|].
  destruct (read t) as [[frame0|]|e]; try exact Hstop.
  pose proof (Inv_publish t frame0 _ Hstop) as Hp.
  destruct (publish np_sqrt cv t frame0 _) as [[u|e] self']; simpl in *.
  - now apply IH.
  - exact Hp.
Qed.

Lemma initialize_camera_invariant (self : detector frame) :
  Inv self -> Inv (snd (initialize_camera cv self)).
Proof.
  intros H. unfold initialize_camera.
  destruct (VideoCapture cv (camera_id self)) as [device|e]; [|exact H].
  simpl. destruct (negb (isOpened _)); simpl; now apply Inv_cap.
Qed.

Lemma capture_loop_invariant (schedule : list (tick frame))
    (self : detector frame) :
  Inv self -> Inv (snd (capture_loop np_sqrt cv schedule self)).
Proof.
  intros H. unfold capture_loop.
  pose proof (initialize_camera_invariant self H) as Hinit.
  destruct (initialize_camera cv self) as [opened self1]. simpl in Hinit.
  destruct opened; simpl; [|exact Hinit].
  pose proof (while_running_invariant schedule (set_is_running true self1)
                (Inv_running true self1 Hinit)) as Hw.
  destruct (while_running np_sqrt cv schedule (set_is_running true self1))
    as [[|] self2]; simpl in *; [exact Hw|].
  apply Inv_running. unfold release_camera.
  destruct (cap self2); [now apply Inv_cap | exact Hw].
Qed.

Lemma run_calls_invariant (calls : list (call frame)) (self : detector frame) :
  Inv self -> Inv (run_calls np_sqrt cv calls self).
Proof.
  unfold run_calls. revert self.
  induction calls as [|c rest IH]; intros self H; simpl; [exact H|].
  apply IH. destruct c as [schedule| |]; simpl.
  - unfold start, start_capture. destruct (negb (is_running self)); simpl;
      [now apply capture_loop_invariant | exact H].
  - now apply Inv_running.
  - now apply Inv_clear.
Qed.
End StateInvariant.

(** X9.  The frame counter never goes down and is never reset, whatever
    calls are made: starts, stops, restarts and history clearing. *)
Theorem frame_count_never_decreases (calls : list (call frame))
    (self : detector frame) :
  (frame_count self <= frame_count (run_calls np_sqrt cv calls self))%Z.
Proof.
  apply (run_calls_invariant
           (fun s => (frame_count self <= frame_count s)%Z)).
  - intros c s H. exact H.
  - intros b s H. exact H.
  - intros t frame0 s H.
    pose proof (publish_keeps t frame0 s) as (_ & _ & _ & _ & _ & Hc). lia.
  - intros s H. exact H.
  - lia.
Qed.

Lemma publish_steady (t : tick frame) (frame0 : frame) (self : detector frame) :
  last_frame_time self <= time_now t ->
  let self' := snd (publish np_sqrt cv t frame0 self) in
  fst (publish np_sqrt cv t frame0 self) = Returned tt
  /\ frame_count self' = (frame_count self + 1)%Z
  /\ current_frame self' = Some frame0
  /\ particles self' = detect_particles np_sqrt cv self frame0
  /\ last_frame_time self' = time_now t
  /\ 0 < fps self' <= 100000.
Proof.
  intros Hclock. unfold publish. simpl.
  set (delta := time_now t - last_frame_time self + eps).
  assert (Hdelta : eps <= delta) by (unfold delta; lra).
  assert (Heps : 0 < eps) by reflexivity.
  rewrite py_div_returns by lra. simpl.
  repeat split.
  - apply Qlt_shift_div_l; lra.
  - apply Qle_shift_div_r; [lra|]. unfold eps in *. lra.
Qed.

(** X10.  When the wall clock has not gone back since the previous
    frame, a turn of the loop completes: it raises nothing, adds 1 to the
    frame counter, publishes the frame and the particles detected on it,
    records the time, and leaves a rate estimate above 0 and at most
    100000. *)
Theorem publish_with_steady_clock (t : tick frame) (frame0 : frame)
    (self : detector frame) :
  last_frame_time self <= time_now t ->
  let self' := snd (publish np_sqrt cv t frame0 self) in
  fst (publish np_sqrt cv t frame0 self) = Returned tt
  /\ frame_count self' = (frame_count self + 1)%Z
  /\ current_frame self' = Some frame0
  /\ particles self' = detect_particles np_sqrt cv self frame0
  /\ last_frame_time self' = time_now t
  /\ 0 < fps self' <= 100000.
Proof. apply publish_steady. Qed.

(** The flag and the device through the loop. *)
Lemma while_running_state (schedule : list (tick frame)) (self : detector frame) :
  is_running self = true ->
  match while_running np_sqrt cv schedule self with
  | (Looping, self') => is_running self' = true /\ cap self' = cap self
  | (Finished, self') => cap self' = cap self
  end.
Proof.
  revert self. induction schedule as [|t later IH]; intros self Hrun; simpl;
    [auto|].
  destruct (stop_requested t); simpl; [reflexivity|].
  rewrite Hrun. simpl.
  destruct (read t) as [[frame0|]|e]; try reflexivity.
  pose proof (publish_keeps t frame0 self) as (Hr & Hc & _).
  destruct (publish np_sqrt cv t frame0 self) as [[u|e] self1]; simpl in *;
    [|exact Hc].
  specialize (IH self1 ltac:(congruence)).
  destruct (while_running np_sqrt cv later self1) as [[|] self2].
  - destruct IH as [IH1 IH2]. split; congruence.
  - congruence.
Qed.

(** X11.  Once the camera has opened, the thread is in one of two
    states: still in the loop, with [is_running] true and the device held;
    or out of it, with [is_running] false and the device released. *)
Theorem capture_loop_releases_camera (schedule : list (tick frame))
    (self : detector frame) :
  fst (initialize_camera cv self) = true ->
  match capture_loop np_sqrt cv schedule self with
  | (Looping, self') => is_running self' = true /\ is_Some (cap self')
  | (Finished, self') => is_running self' = false /\ cap self' = None
  end.
Proof.
  unfold capture_loop, initialize_camera.
  destruct (VideoCapture cv (camera_id self)) as [device|e]; [|discriminate].
  simpl. destruct (negb (isOpened _)); simpl; [discriminate|]. intros _.
  match goal with
  | |- context [while_running _ _ _ ?s] =>
      pose proof (while_running_state schedule s eq_refl) as Hw;
      destruct (while_running np_sqrt cv schedule s) as [[|] self2]
  end; simpl in *.
  - destruct Hw as [Hr Hc]. split; [exact Hr|]. rewrite Hc. eauto.
  - split; [reflexivity|]. unfold release_camera.
    destruct (cap self2) eqn:E; simpl; [reflexivity | exact E].
Qed.


(** X13.  A second [start_capture] while the thread of the first is
    still in the loop starts nothing and changes nothing. *)
Theorem second_start_is_ignored (first second : list (tick frame))
    (self : detector frame) :
  is_running self = false ->
  fst (capture_loop np_sqrt cv first self) = Looping ->
  run_calls np_sqrt cv [Start first; Start second] self
  = run_calls np_sqrt cv [Start first] self
  /\ snd (start_capture (run_calls np_sqrt cv [Start first] self)) = false.
Proof.
  intros Hstopped Hloop.
  assert (Hfirst : run_calls np_sqrt cv [Start first] self
                   = snd (capture_loop np_sqrt cv first self)).
  { unfold run_calls. simpl. unfold start, start_capture.
    rewrite Hstopped. reflexivity. }
  assert (Hrun : is_running (snd (capture_loop np_sqrt cv first self)) = true).
  { revert Hloop. unfold capture_loop.
    destruct (initialize_camera cv self) as [[|] self1]; simpl; [|discriminate].
    pose proof (while_running_state first (set_is_running true self1) eq_refl)
      as Hw.
    destruct (while_running np_sqrt cv first (set_is_running true self1))
      as [[|] self2]; simpl; [|discriminate].
    intros _. apply Hw. }
  change (run_calls np_sqrt cv [Start first; Start second] self)
    with (run_call np_sqrt cv (run_calls np_sqrt cv [Start first] self)
            (Start second)).
  rewrite Hfirst. simpl. unfold start, start_capture. rewrite Hrun. simpl.
  split; reflexivity.
Qed.
Lemma detect_particles_sound (self : detector frame) (frame0 : frame) :
  0 <= min_particle_size self ->
  Forall (sound_descriptor (min_particle_size self) (max_particle_size self))
         (detect_particles np_sqrt cv self frame0).
Proof.
  intros Hmin. apply Forall_forall. intros p H.
  apply detect_particles_elem in H as (gray & c & H).
  apply analyse_contour_some in H as (r & _ & _ & Hsize & _ & Hr & Hcirc & Hshape).
  apply orb_false_elim in Hsize as [Hlo Hhi].
  destruct (ltb_spec (area p) (min_particle_size self)); [discriminate|].
  destruct (gtb_spec (area p) (max_particle_size self)); [discriminate|].
  split; [lra|]. split.
  - apply (calculate_circularity_range (area p) (perimeter p)); [lra | exact Hcirc].
  - rewrite Hr. exact Hshape.
Qed.

Lemma deque_append_Forall {A : Type} (P : A -> Prop) (x : A) (d : deque A) :
  Forall P (items d) -> P x -> Forall P (items (deque_append x d)).
Proof.
  intros Hd Hx. unfold deque_append. simpl.
  assert (Hall : Forall P (items d ++ [x]))
    by (apply Forall_app; split; [exact Hd | now constructor]).
  destruct (Nat.ltb _ _); [|exact Hall].
  destruct (items d ++ [x]) as [|y rest]; [constructor|].
  simpl. now inversion Hall.
Qed.

(** The invariant of a detector that started as [init]. *)
Lemma reached_invariant (calls : list (call frame)) (camera_id0 : Z) (now : Q) :
  let reached := run_calls np_sqrt cv calls (init camera_id0 now) in
  (min_particle_size reached = 50 /\ max_particle_size reached = 10000)
  /\ Forall (sound_descriptor 50 10000) (particles reached)
  /\ Forall (sound_snapshot 50 10000) (items (particle_history reached)).
Proof.
  apply (run_calls_invariant
           (fun s => (min_particle_size s = 50 /\ max_particle_size s = 10000)
                     /\ Forall (sound_descriptor 50 10000) (particles s)
                     /\ Forall (sound_snapshot 50 10000)
                               (items (particle_history s)))).
  - intros c s H. exact H.
  - intros b s H. exact H.
  - intros t frame0 s ([Hlo Hhi] & Hp & Hh).
    pose proof (publish_keeps t frame0 s) as (_ & _ & _ & Hlo' & Hhi' & _).
    assert (Hnew : Forall (sound_descriptor 50 10000)
                          (detect_particles np_sqrt cv s frame0)).
    { rewrite <- Hlo, <- Hhi. apply detect_particles_sound.
      rewrite Hlo. discriminate. }
    split; [split; congruence|].
    rewrite publish_particles, publish_history.
    split; [exact Hnew|].
    apply deque_append_Forall; [exact Hh|]. split; [reflexivity | exact Hnew].
  - intros s (Hb & Hp & _). simpl. repeat split; try apply Hb; try exact Hp.
    constructor.
  - simpl. repeat split; constructor.
Qed.

(** X14.  Whatever calls are made on a new detector, every particle it
    publishes and every particle in every snapshot of its history has an
    area between 50 and 10000, a circularity between 0 and 1 and the
    shape label of the classifier; and the count of every snapshot is the
    length of its particle list. *)
Theorem published_descriptors_sound (calls : list (call frame))
    (camera_id0 : Z) (now : Q) :
  let reached := run_calls np_sqrt cv calls (init camera_id0 now) in
  Forall (sound_descriptor 50 10000) (particles reached)
  /\ Forall (sound_snapshot 50 10000) (items (particle_history reached)).
Proof.
  intros reached. destruct (reached_invariant calls camera_id0 now)
    as (_ & Hp & Hh).
  split; assumption.
Qed.
End LoopFacts.

(** *** The routes of the server *)

(** X15.  The risk level of [/api/particles/save] never goes down when
    the area grows or the circularity shrinks. *)
Theorem risk_level_monotone (size size' circularity0 circularity' : Q) :
  size <= size' ->
  circularity' <= circularity0 ->
  (risk_rank (risk_level_of size circularity0)
   <= risk_rank (risk_level_of size' circularity'))%nat.
Proof.
  intros Hsize Hcirc. unfold risk_level_of.
  compare; simpl; try (exfalso; lra); vm_compute; lia.
Qed.

Lemma roughness_lookup (smooth rough weathered : nat) :
  let h : gmap string nat :=
    list_to_map [("smooth", smooth); ("rough", rough); ("weathered", weathered)] in
  h !! "smooth" = Some smooth /\ h !! "rough" = Some rough
  /\ h !! "weathered" = Some weathered.
Proof. repeat split; reflexivity. Qed.

(** X16.  The surface label of a particle in the live CSV export is the
    roughness bucket that counts it in [quantify_particles], except when
    its intensity deviation is 20 or lies strictly between 40 and 50. *)
Theorem surface_label_and_bucket (np_sqrt : Q -> Q) (p : particle) :
  exists buckets : gmap string nat,
    hist_at "roughness_distribution" (quantify_particles np_sqrt [p])
    = Some buckets
    /\ (buckets !! csv_surface p = Some 1%nat
        <-> ~ get (std_intensity p) 0 == 20
            /\ ~ (40 < get (std_intensity p) 0 /\ get (std_intensity p) 0 < 50)).
Proof.
  eexists. split; [reflexivity|].
  match goal with
  | |- context [list_to_map [("smooth", ?a); ("rough", ?b); ("weathered", ?c)]] =>
      destruct (roughness_lookup a b c) as (Hs & Hr & Hw)
  end.
  unfold csv_surface.
  destruct (gtb_spec (get (std_intensity p) 0) 40) as [H40|H40];
    [|destruct (gtb_spec (get (std_intensity p) 0) 20) as [H20|H20]].
  - rewrite Hw. simpl. compare; simpl.
    + split; [intros _; split; lra | reflexivity].
    + split; [discriminate | intros [_ H]; exfalso; apply H; lra].
  - rewrite Hr. simpl. compare; simpl; try (exfalso; lra).
    split; [intros _; split; lra | reflexivity].
  - rewrite Hs. simpl. compare; simpl.
    + split; [intros _; split; lra | reflexivity].
    + split; [discriminate | intros [H _]; exfalso; apply H; lra].
Qed.

Lemma structure_of_category (shape0 : string) :
  shape0 ∈ ["bead"; "spherical"; "fiber"; "fragment"; "film"] ->
  structure_type_of shape0 ∈ ["fiber"; "bead"; "film"; "fragment"]
  /\ (structure_type_of shape0 = shape0
      \/ shape0 = "spherical" /\ structure_type_of shape0 = "fragment").
Proof.
  intros H. repeat (apply elem_of_cons in H as [->|H]);
    [..|inversion H]; vm_compute; split; auto; set_solver.
Qed.

Lemma risk_level_category (size circularity0 : Q) :
  risk_level_of size circularity0 ∈ ["critical"; "high"; "medium"; "low"].
Proof.
  unfold risk_level_of.
  destruct (_ || _); [set_solver|]. destruct (_ || _); [set_solver|].
  destruct (_ >? _); set_solver.
Qed.

Section ServerFacts.
Context {frame image : Type}.
Variable np_sqrt : Q -> Q.
Variable cv : cv2 frame image.
Variable format_sample_id : Z -> nat -> string.
Variable strftime : string -> Q -> string.
Variable isoformat : Q -> string.
Variable commit : list live_row -> outcome unit.


Lemma snapshot_rows_length (s : snapshot) :
  length (snapshot_rows strftime s) = length (snap_particles s).
Proof. unfold snapshot_rows. apply length_map. Qed.

Lemma flat_map_rows_length (entries : list snapshot) :
  Forall (sound_snapshot 50 10000) entries ->
  length (flat_map (snapshot_rows strftime) entries)
  = sum_list (map snap_count entries).
Proof.
  induction 1 as [|s rest [Hcount _] _ IH]; simpl; [reflexivity|].
  rewrite length_app, snapshot_rows_length, IH, Hcount. reflexivity.
Qed.

End ServerFacts.

Lemma provided_product (x y : option Q) :
  provided x = true -> provided y = true ->
  provided (Some (get x 0 * get y 0)) = true.
Proof.
  destruct x as [x|], y as [y|]; simpl; try discriminate.
  destruct (eqb_spec x 0), (eqb_spec y 0); simpl; try discriminate.
  intros _ _. destruct (eqb_spec (x * y) 0) as [H|]; [|reflexivity].
  exfalso. destruct (Qlt_le_dec 0 x), (Qlt_le_dec 0 y); nra.
Qed.

Ltac fields :=
  cbn [data_length data_width data_thickness data_area data_volume
       data_aspect_ratio andb negb].

Lemma fill_area_again (data : sample_data) :
  fill_area (fill_area data) = fill_area data.
Proof.
  unfold fill_area at 2 3.
  destruct (provided (data_length data)) eqn:El; fields;
    [|unfold fill_area; now rewrite El].
  destruct (provided (data_width data)) eqn:Ew; fields;
    [|unfold fill_area; now rewrite El, Ew].
  destruct (provided (data_area data)) eqn:Ea; fields;
    [unfold fill_area; now rewrite El, Ew, Ea|].
  unfold fill_area. fields. rewrite El, Ew, provided_product by assumption.
  reflexivity.
Qed.

Lemma fill_volume_again (data : sample_data) :
  fill_volume (fill_volume data) = fill_volume data.
Proof.
  unfold fill_volume at 2 3.
  destruct (provided (data_length data)) eqn:El; fields;
    [|unfold fill_volume; now rewrite El].
  destruct (provided (data_width data)) eqn:Ew; fields;
    [|unfold fill_volume; now rewrite El, Ew].
  destruct (provided (data_thickness data)) eqn:Et; fields;
    [|unfold fill_volume; now rewrite El, Ew, Et].
  destruct (provided (data_volume data)) eqn:Ev; fields;
    [unfold fill_volume; now rewrite El, Ew, Et, Ev|].
  unfold fill_volume. fields. rewrite El, Ew, Et. fields.
  assert (Hlw : provided (Some (get (data_length data) 0
                                * get (data_width data) 0)) = true)
    by now apply provided_product.
  pose proof (provided_product _ _ Hlw Et) as Hv. cbn [get] in Hv.
  rewrite Hv. reflexivity.
Qed.

Lemma fill_aspect_ratio_again (data : sample_data) :
  fill_aspect_ratio (fill_aspect_ratio data) = fill_aspect_ratio data.
Proof.
  unfold fill_aspect_ratio at 2 3.
  destruct (provided (data_length data)) eqn:El; fields;
    [|unfold fill_aspect_ratio; now rewrite El].
  destruct (provided (data_width data)) eqn:Ew; fields;
    [|unfold fill_aspect_ratio; now rewrite El, Ew].
  destruct (provided (data_aspect_ratio data)) eqn:Er; fields;
    [unfold fill_aspect_ratio; now rewrite El, Ew, Er|].
  unfold fill_aspect_ratio. fields. rewrite El, Ew. fields.
  destruct (provided (Some _)); reflexivity.
Qed.

Local Arguments provided : simpl never.

Ltac decide_provided :=
  repeat (simpl;
          match goal with
          | |- context [provided ?x] => is_var x; destruct (provided x) eqn:?
          end).

Lemma fill_volume_area (data : sample_data) :
  fill_volume (fill_area data) = fill_area (fill_volume data).
Proof.
  destruct data as [l w t a v r]. unfold fill_volume, fill_area.
  decide_provided; simpl; try congruence; reflexivity.
Qed.

Lemma fill_aspect_ratio_area (data : sample_data) :
  fill_aspect_ratio (fill_area data) = fill_area (fill_aspect_ratio data).
Proof.
  destruct data as [l w t a v r]. unfold fill_aspect_ratio, fill_area.
  decide_provided; simpl; try congruence; reflexivity.
Qed.

Lemma fill_aspect_ratio_volume (data : sample_data) :
  fill_aspect_ratio (fill_volume data) = fill_volume (fill_aspect_ratio data).
Proof.
  destruct data as [l w t a v r]. unfold fill_aspect_ratio, fill_volume.
  decide_provided; simpl; try congruence; reflexivity.
Qed.

Lemma fill_area_provided (data : sample_data) :
  provided (data_length data) = true -> provided (data_width data) = true ->
  provided (data_area (fill_area data)) = true
  /\ (provided (data_area data) = true ->
      data_area (fill_area data) = data_area data).
Proof.
  intros Hl Hw. unfold fill_area. rewrite Hl, Hw.
  destruct (provided (data_area data)) eqn:Ha; simpl.
  - split; [exact Ha | reflexivity].
  - split; [now apply provided_product | discriminate].
Qed.

Lemma fill_volume_keeps_area (data : sample_data) :
  data_area (fill_volume data) = data_area data.
Proof. unfold fill_volume. destruct (_ && _); reflexivity. Qed.

Lemma fill_aspect_ratio_keeps_area (data : sample_data) :
  data_area (fill_aspect_ratio data) = data_area data.
Proof. unfold fill_aspect_ratio. destruct (_ && _); reflexivity. Qed.


(** *** How long the loop runs *)

Section LoopLength.
Context {frame image : Type}.
Variable np_sqrt : Q -> Q.
Variable cv : cv2 frame image.

Lemma while_running_steady (schedule : list (tick frame)) (self : detector frame) :
  is_running self = true ->
  steady (last_frame_time self) schedule ->
  fst (while_running np_sqrt cv schedule self) = Looping
  /\ frame_count (snd (while_running np_sqrt cv schedule self))
     = (frame_count self + Z.of_nat (length schedule))%Z
  /\ is_running (snd (while_running np_sqrt cv schedule self)) = true.
Proof.
  revert self. induction schedule as [|t later IH]; intros self Hrun Hsteady.
  - simpl. repeat split; [lia | exact Hrun].
  - destruct Hsteady as (Hstop & [frame0 Hread] & Hclock & Hlater).
    cbn [while_running]. rewrite Hstop, Hrun, Hread. cbn [negb].
    pose proof (publish_steady np_sqrt cv t frame0 self Hclock)
      as (Hret & Hcount & _ & _ & Hlast & _).
    pose proof (publish_keeps np_sqrt cv t frame0 self) as (Hr & _).
    destruct (publish np_sqrt cv t frame0 self) as [[u|e] self1];
      simpl in *; [|discriminate].
    rewrite <- Hlast in Hlater.
    destruct (IH self1 ltac:(congruence) Hlater) as (H1 & H2 & H3).
    repeat split; [exact H1 | rewrite H2; lia | exact H3].
Qed.

Lemma while_running_ends (before later : list (tick frame)) (t : tick frame)
    (self : detector frame) :
  is_running self = true ->
  steady (last_frame_time self) before ->
  stop_requested t = true \/ read t = Returned None
  \/ (exists e, read t = Raised e) ->
  fst (while_running np_sqrt cv (before ++ t :: later) self) = Finished
  /\ while_running np_sqrt cv (before ++ t :: later) self
     = while_running np_sqrt cv (before ++ [t]) self
  /\ frame_count (snd (while_running np_sqrt cv (before ++ t :: later) self))
     = (frame_count self + Z.of_nat (length before))%Z.
Proof.
  revert self. induction before as [|b rest IH]; intros self Hrun Hsteady Hend.
  - cbn [app while_running].
    destruct (stop_requested t) eqn:Hstop.
    + simpl. repeat split. lia.
    + rewrite Hrun. cbn [negb].
      destruct Hend as [Hs|[Hr|[e Hr]]]; [discriminate| |];
        rewrite Hr; simpl; repeat split; lia.
  - destruct Hsteady as (Hstop & [frame0 Hread] & Hclock & Hlater).
    cbn [app while_running]. rewrite Hstop, Hrun, Hread. cbn [negb].
    pose proof (publish_steady np_sqrt cv b frame0 self Hclock)
      as (Hret & Hcount & _ & _ & Hlast & _).
    pose proof (publish_keeps np_sqrt cv b frame0 self) as (Hr & _).
    destruct (publish np_sqrt cv b frame0 self) as [[u|e] self1];
      simpl in *; [|discriminate].
    rewrite <- Hlast in Hlater.
    destruct (IH self1 ltac:(congruence) Hlater Hend) as (H1 & H2 & H3).
    repeat split; [exact H1 | exact H2 | rewrite H3; simpl length; lia].
Qed.

Lemma initialize_camera_opened (self : detector frame) :
  fst (initialize_camera cv self) = true ->
  let self1 := snd (initialize_camera cv self) in
  last_frame_time self1 = last_frame_time self
  /\ frame_count self1 = frame_count self.
Proof.
  unfold initialize_camera.
  destruct (VideoCapture cv (camera_id self)) as [device|e]; [|discriminate].
  simpl. destruct (negb (isOpened _)); simpl; auto.
Qed.

(** X20.  Once the camera has opened, and as long as no stop is
    requested, every read gives a frame and the wall clock does not go
    back, the thread stays in the loop and has counted one frame per
    turn. *)
Theorem steady_schedule_keeps_looping (schedule : list (tick frame))
    (self : detector frame) :
  fst (initialize_camera cv self) = true ->
  steady (last_frame_time self) schedule ->
  fst (capture_loop np_sqrt cv schedule self) = Looping
  /\ frame_count (snd (capture_loop np_sqrt cv schedule self))
     = (frame_count self + Z.of_nat (length schedule))%Z
  /\ is_running (snd (capture_loop np_sqrt cv schedule self)) = true.
Proof.
  intros Hopen Hsteady. unfold capture_loop.
  pose proof (initialize_camera_opened self Hopen) as [Hlast Hcount].
  destruct (initialize_camera cv self) as [opened self1]. simpl in *.
  subst opened. simpl.
  pose proof (while_running_steady schedule (set_is_running true self1)
                eq_refl) as Hw.
  simpl in Hw. rewrite Hlast in Hw. specialize (Hw Hsteady).
  destruct (while_running np_sqrt cv schedule (set_is_running true self1))
    as [[|] self2]; simpl in *.
  - destruct Hw as (_ & H2 & H3). repeat split; [rewrite H2; lia | exact H3].
  - destruct Hw as (Hw & _). discriminate.
Qed.

(** X21.  A stop request, a failed read or a read that raises ends the
    thread at that turn: the turns scheduled after it are never taken,
    the frames counted are those of the turns before it, the flag is
    false and the device is released. *)
Theorem loop_ends_at_first_failure (before later : list (tick frame))
    (t : tick frame) (self : detector frame) :
  fst (initialize_camera cv self) = true ->
  steady (last_frame_time self) before ->
  stop_requested t = true \/ read t = Returned None
  \/ (exists e, read t = Raised e) ->
  let ended := capture_loop np_sqrt cv (before ++ t :: later) self in
  fst ended = Finished
  /\ ended = capture_loop np_sqrt cv (before ++ [t]) self
  /\ frame_count (snd ended) = (frame_count self + Z.of_nat (length before))%Z
  /\ is_running (snd ended) = false
  /\ cap (snd ended) = None.
Proof.
  intros Hopen Hsteady Hend ended. subst ended. unfold capture_loop.
  pose proof (initialize_camera_opened self Hopen) as [Hlast Hcount].
  destruct (initialize_camera cv self) as [opened self1]. simpl in *.
  subst opened. simpl.
  pose proof (while_running_ends before later t (set_is_running true self1)
                eq_refl) as Hw.
  simpl in Hw. rewrite Hlast in Hw. specialize (Hw Hsteady Hend).
  destruct Hw as (H1 & H2 & H3). rewrite <- H2.
  destruct (while_running np_sqrt cv (before ++ t :: later)
              (set_is_running true self1)) as [[|] self2]; simpl in *;
    [discriminate|].
  split; [reflexivity|]. split; [reflexivity|].
  unfold release_camera.
  destruct (cap self2) eqn:E; simpl; repeat split; try (rewrite H3; lia);
    exact E.
Qed.
End LoopLength.

(** X22.  [/api/webcam/start] answers 200 with the status "running" also
    when the camera does not open: the detector it leaves is stopped, has
    an empty history and the frame counter it had, and
    [/api/webcam/status] then says it is not running. *)
Theorem start_webcam_with_no_camera {frame image : Type} (np_sqrt : Q -> Q)
    (cv : cv2 frame image) (round1 : Q -> Q) (now : Q)
    (schedule : list (tick frame)) (detector0 : option (detector frame)) :
  let before := match detector0 with
                | None => init 0 now
                | Some self => self
                end in
  is_running before = false ->
  open_fails cv before ->
  exists after : detector frame,
    start_webcam np_sqrt cv now schedule detector0
    = (200%Z, "running", Some after)
    /\ is_running after = false
    /\ items (particle_history after) = []
    /\ frame_count after = frame_count before
    /\ ws_is_running (webcam_status round1 (Some after)) = false.
Proof.
  intros before Hstopped Hfail. unfold start_webcam. fold before.
  set (cleared := set_particle_history (deque_clear (particle_history before))
                    before).
  assert (Hrun : is_running cleared = false) by exact Hstopped.
  rewrite Hrun. simpl negb. cbv iota.
  eexists. split; [reflexivity|].
  unfold start, start_capture. rewrite Hrun. simpl.
  assert (Hfail' : open_fails cv cleared) by exact Hfail.
  pose proof (initialize_camera_fails cv cleared Hfail') as Hinit.
  pose proof (initialize_camera_keeps cv cleared) as (Hr & _ & Hh & Hc & _).
  unfold capture_loop.
  destruct (initialize_camera cv cleared) as [opened self1]. simpl in *.
  subst opened. simpl. rewrite Hr, Hh, Hc. repeat split; assumption.
Qed.

(** *** Sample ids of saved particles *)

Lemma digit_value_pretty (d : N) :
  (d < 10)%N -> digit_value (pretty_N_char d) = d.
Proof.
  intros H.
  assert (Hcases : (d = 0 \/ d = 1 \/ d = 2 \/ d = 3 \/ d = 4 \/ d = 5
                    \/ d = 6 \/ d = 7 \/ d = 8 \/ d = 9)%N) by lia.
  repeat (destruct Hcases as [->|Hcases]; [reflexivity|]).
  subst d. reflexivity.
Qed.

Lemma decimal_value_go (x : N) (s : string) :
  decimal_value (pretty_N_go x s)
  = (x * 10 ^ N.of_nat (String.length s) + decimal_value s)%N.
Proof.
  revert s. induction (N.lt_wf_0 x) as [x _ IH]. intros s.
  destruct (decide (x = 0)%N) as [->|Hpos].
  - rewrite pretty_N_go_0. lia.
  - rewrite pretty_N_go_step by lia.
    rewrite IH by (apply N.div_lt; lia).
    cbn [decimal_value String.length].
    rewrite digit_value_pretty by (apply N.mod_lt; lia).
    rewrite Nat2N.inj_succ, N.pow_succ_r'.
    pose proof (N.div_mod x 10 ltac:(lia)) as Hdm.
    set (p := (10 ^ N.of_nat (String.length s))%N) in *. nia.
Qed.

Lemma decimal_value_pretty (x : N) : decimal_value (pretty x) = x.
Proof.
  unfold pretty, pretty_N. destruct (decide (x = 0)%N) as [->|H]; [reflexivity|].
  rewrite decimal_value_go. simpl. lia.
Qed.

Lemma decimal_value_zeros (k : nat) (s : string) :
  decimal_value (String.append
                   (String.string_of_list_ascii
                      (replicate k (Ascii.ascii_of_nat 48))) s)
  = decimal_value s.
Proof.
  induction k as [|k IH]; [reflexivity|].
  change (decimal_value
            (String (Ascii.ascii_of_nat 48)
               (String.append
                  (String.string_of_list_ascii
                     (replicate k (Ascii.ascii_of_nat 48))) s))
          = decimal_value s).
  cbn [decimal_value]. rewrite IH.
  change (digit_value (Ascii.ascii_of_nat 48)) with 0%N. lia.
Qed.

(** Reading back a formatted non-negative number gives the number. *)
Lemma format_0d_value (width : nat) (n : Z) :
  (0 <= n)%Z -> decimal_value (format_0d width n) = Z.to_N n.
Proof.
  intros H. unfold format_0d. cbv zeta.
  destruct (Z.ltb_spec n 0) as [|_]; [lia|].
  change (String.append "" ?x) with x.
  rewrite decimal_value_zeros, decimal_value_pretty. lia.
Qed.

Lemma string_append_inv (prefix a b : string) :
  String.append prefix a = String.append prefix b -> a = b.
Proof.
  induction prefix as [|c rest IH]; simpl; [auto|].
  intros H. injection H as H. auto.
Qed.

Lemma live_sample_id_index (frame_count0 : Z) (i j : nat) :
  live_sample_id frame_count0 i = live_sample_id frame_count0 j -> i = j.
Proof.
  unfold live_sample_id. intros H.
  do 3 apply string_append_inv in H.
  apply (f_equal decimal_value) in H.
  rewrite !format_0d_value in H by lia. lia.
Qed.


(** *** Instances on the bench *)

Lemma square_in_frame :
  square_particle ∈ detect_particles sqrt_2dp (bench webcam [square]) fresh tt.
Proof. vm_compute. left. Qed.

Lemma detected_circularity_range_witness :
  0 <= min_particle_size fresh /\ 0 <= circularity square_particle <= 1.
Proof.
  assert (Hmin : 0 <= min_particle_size (frame := unit) fresh) by discriminate.
  split; [exact Hmin|].
  exact (detected_circularity_range sqrt_2dp (bench webcam [square]) fresh tt
           square_particle Hmin square_in_frame).
Defined.

Lemma detected_shape_type_witness :
  shape_type square_particle
  = classify_shape (circularity square_particle)
      (get (aspect_ratio square_particle) 1.0)
  /\ shape_type square_particle
     ∈ ["bead"; "spherical"; "fiber"; "fragment"; "film"].
Proof.
  exact (detected_shape_type sqrt_2dp (bench webcam [square]) fresh tt
           square_particle square_in_frame).
Defined.


Lemma detected_in_contour_order_witness :
  map contour (detect_particles sqrt_2dp (bench webcam [square]) fresh tt)
    `sublist_of` [square_outline]
  /\ (length (detect_particles sqrt_2dp (bench webcam [square]) fresh tt)
      <= length [square_outline])%nat.
Proof.
  assert (Hpre : preprocess (bench webcam [square]) tt
                 = Returned (tt, [square_outline])) by reflexivity.
  exact (detected_in_contour_order sqrt_2dp (bench webcam [square]) fresh tt
           tt [square_outline] Hpre).
Defined.



Lemma shape_distribution_keys_witness :
  exists shape_dist : gmap string nat,
    hist_at "shape_distribution" (quantify_particles sqrt_2dp [square_particle])
    = Some shape_dist
    /\ is_Some (shape_dist !! "bead").
Proof.
  assert (Hne : [square_particle] <> []) by discriminate.
  destruct (shape_distribution_keys sqrt_2dp [square_particle] Hne)
    as (shape_dist & Hhist & Hkeys & _).
  exists shape_dist. split; [exact Hhist|].
  apply Hkeys. vm_compute. left.
Defined.

Lemma publish_with_steady_clock_witness :
  last_frame_time fresh <= time_now next_frame
  /\ frame_count (snd (publish sqrt_2dp (bench webcam [square]) next_frame tt
                         fresh)) = 1%Z.
Proof.
  assert (Hclock : last_frame_time (frame := unit) fresh <= time_now next_frame)
    by discriminate.
  split; [exact Hclock|].
  exact (proj1 (proj2 (publish_with_steady_clock sqrt_2dp
                         (bench webcam [square]) next_frame tt fresh Hclock))).
Defined.

Lemma capture_loop_releases_camera_witness :
  fst (initialize_camera (bench webcam [square]) fresh) = true
  /\ match capture_loop sqrt_2dp (bench webcam [square])
             (three_frames ++ [failed_read]) fresh with
     | (Looping, self') => is_running self' = true /\ is_Some (cap self')
     | (Finished, self') => is_running self' = false /\ cap self' = None
     end.
Proof.
  assert (Hopen : fst (initialize_camera (bench webcam [square]) fresh) = true)
    by reflexivity.
  split; [exact Hopen|].
  exact (capture_loop_releases_camera sqrt_2dp (bench webcam [square])
           (three_frames ++ [failed_read]) fresh Hopen).
Defined.


Lemma second_start_is_ignored_witness :
  run_calls sqrt_2dp (bench webcam [square])
    [Start three_frames; Start hundred_frames] fresh
  = run_calls sqrt_2dp (bench webcam [square]) [Start three_frames] fresh.
Proof.
  assert (Hstopped : is_running (frame := unit) fresh = false) by reflexivity.
  assert (Hloop : fst (capture_loop sqrt_2dp (bench webcam [square])
                         three_frames fresh) = Looping)
    by (vm_compute; reflexivity).
  exact (proj1 (second_start_is_ignored sqrt_2dp (bench webcam [square])
                  three_frames hundred_frames fresh Hstopped Hloop)).
Defined.

Lemma risk_level_monotone_witness :
  (risk_rank (risk_level_of 100 0.9) <= risk_rank (risk_level_of 6000 0.2))%nat.
Proof.
  apply (risk_level_monotone 100 6000 0.9 0.2); discriminate.
Defined.



Example saved_sample_id :
  map row_sample_id saved_rows = ["LIVE-000003-000"].
Proof. vm_compute. reflexivity. Qed.


Lemma three_frames_steady : steady (last_frame_time (frame := unit) fresh)
                                   three_frames.
Proof. simpl. repeat split; eauto; discriminate. Qed.

Lemma steady_schedule_keeps_looping_witness :
  fst (capture_loop sqrt_2dp (bench webcam [square]) three_frames fresh)
  = Looping
  /\ frame_count (snd (capture_loop sqrt_2dp (bench webcam [square])
                         three_frames fresh)) = 3%Z.
Proof.
  assert (Hopen : fst (initialize_camera (bench webcam [square]) fresh) = true)
    by reflexivity.
  destruct (steady_schedule_keeps_looping sqrt_2dp (bench webcam [square])
              three_frames fresh Hopen three_frames_steady) as (H1 & H2 & _).
  split; [exact H1 | exact H2].
Defined.

Lemma loop_ends_at_first_failure_witness :
  fst (capture_loop sqrt_2dp (bench webcam [square])
         (three_frames ++ failed_read :: hundred_frames) fresh) = Finished
  /\ frame_count (snd (capture_loop sqrt_2dp (bench webcam [square])
                         (three_frames ++ failed_read :: hundred_frames) fresh))
     = 3%Z.
Proof.
  assert (Hopen : fst (initialize_camera (bench webcam [square]) fresh) = true)
    by reflexivity.
  assert (Hend : stop_requested failed_read = true
                 \/ read failed_read = Returned None
                 \/ (exists e, read failed_read = Raised e))
    by (right; left; reflexivity).
  destruct (loop_ends_at_first_failure sqrt_2dp (bench webcam [square])
              three_frames hundred_frames failed_read fresh Hopen
              three_frames_steady Hend) as (H1 & _ & H3 & _).
  split; [exact H1 | exact H3].
Defined.

Lemma start_webcam_with_no_camera_witness :
  exists after : detector unit,
    start_webcam sqrt_2dp (bench no_webcam []) 0 three_frames None
    = (200%Z, "running", Some after)
    /\ is_running after = false.
Proof.
  assert (Hstopped : is_running (frame := unit) (init 0 0) = false)
    by reflexivity.
  assert (Hfail : open_fails (bench no_webcam []) (init (frame := unit) 0 0))
    by reflexivity.
  destruct (start_webcam_with_no_camera sqrt_2dp (bench no_webcam [])
              (fun x => x) 0 three_frames None Hstopped Hfail)
    as (after & Hstart & Hrun & _).
  exists after. split; [exact Hstart | exact Hrun].
Defined.

(** *** Independence of frames and of order *)

Section Independence.
Context {frame image : Type}.
Variable np_sqrt : Q -> Q.
Variable cv : cv2 frame image.

Lemma analyse_contour_bounds (self self' : detector frame) (frame0 : frame)
    (gray : image) (c : contour_t) :
  min_particle_size self' = min_particle_size self ->
  max_particle_size self' = max_particle_size self ->
  analyse_contour np_sqrt cv self' frame0 gray c
  = analyse_contour np_sqrt cv self frame0 gray c.
Proof. intros Hlo Hhi. unfold analyse_contour. now rewrite Hlo, Hhi. Qed.

Lemma detect_particles_bounds (self self' : detector frame) (frame0 : frame) :
  min_particle_size self' = min_particle_size self ->
  max_particle_size self' = max_particle_size self ->
  detect_particles np_sqrt cv self' frame0
  = detect_particles np_sqrt cv self frame0.
Proof.
  intros Hlo Hhi. rewrite !detect_particles_body. unfold detect_body.
  destruct (preprocess cv frame0) as [[gray contours]|e]; [|reflexivity].
  rewrite !for_contours_kept. simpl. f_equal. apply map_ext. intros c.
  now apply analyse_contour_bounds.
Qed.

(** X24.  What a turn of the loop publishes for a frame depends on that
    frame only: whatever the detector went through before, the particles
    are those a new detector finds on the frame. *)
Theorem detection_ignores_the_past (calls : list (call frame))
    (camera_id0 : Z) (now : Q) (t : tick frame) (frame0 : frame) :
  particles (snd (publish np_sqrt cv t frame0
                    (run_calls np_sqrt cv calls (init camera_id0 now))))
  = detect_particles np_sqrt cv (init camera_id0 now) frame0.
Proof.
  rewrite publish_particles.
  destruct (reached_invariant np_sqrt cv calls camera_id0 now)
    as ([Hlo Hhi] & _).
  apply detect_particles_bounds; assumption.
Qed.
End Independence.

Lemma sum_1_if_permutation {A : Type} (cond : A -> bool) (xs ys : list A) :
  xs ≡ₚ ys -> sum_1_if cond xs = sum_1_if cond ys.
Proof.
  induction 1 as [|x xs ys _ IH|x y xs|xs ys zs _ IH1 _ IH2]; simpl.
  - reflexivity.
  - now rewrite IH.
  - destruct (cond x), (cond y); reflexivity.
  - congruence.
Qed.

Lemma count_shapes_permutation (xs ys : list string) :
  xs ≡ₚ ys -> count_shapes xs = count_shapes ys.
Proof.
  intros H. apply map_eq. intros s. rewrite !count_shapes_lookup.
  unfold py_count. rewrite (sum_1_if_permutation _ xs ys H).
  destruct (decide (s ∈ xs)) as [Hin|Hout].
  - rewrite decide_True; [reflexivity | now rewrite <- H].
  - rewrite decide_False; [reflexivity | now rewrite <- H].
Qed.

(** X25.  The count and the three histograms of [quantify_particles] do
    not depend on the order of the particles. *)
Theorem histograms_ignore_order (np_sqrt : Q -> Q)
    (particles0 particles1 : list particle) :
  particles0 ≡ₚ particles1 ->
  let result0 := quantify_particles np_sqrt particles0 in
  let result1 := quantify_particles np_sqrt particles1 in
  int_at "count" result0 = int_at "count" result1
  /\ hist_at "size_distribution" result0 = hist_at "size_distribution" result1
  /\ hist_at "shape_distribution" result0 = hist_at "shape_distribution" result1
  /\ hist_at "roughness_distribution" result0
     = hist_at "roughness_distribution" result1.
Proof.
  intros H.
  destruct particles0 as [|p0 rest0], particles1 as [|p1 rest1].
  - repeat split.
  - apply Permutation_nil_l in H. discriminate.
  - apply Permutation_nil_r in H. discriminate.
  - set (ps0 := p0 :: rest0) in *. set (ps1 := p1 :: rest1) in *.
    intros result0 result1.
    assert (Hlen : length ps0 = length ps1) by now apply Permutation_length.
    assert (Hareas : map area ps0 ≡ₚ map area ps1) by now apply fmap_Permutation.
    assert (Hshapes : map shape_type ps0 ≡ₚ map shape_type ps1)
      by now apply fmap_Permutation.
    split.
    { change (Some (Z.of_nat (length ps0)) = Some (Z.of_nat (length ps1))).
      now rewrite Hlen. }
    split.
    { change (Some (list_to_map
                      [("tiny", sum_1_if (fun a => a <? 100) (map area ps0));
                       ("small", sum_1_if (fun a => (100 <=? a) && (a <? 500))
                                   (map area ps0));
                       ("medium", sum_1_if (fun a => (500 <=? a) && (a <? 2000))
                                    (map area ps0));
                       ("large", sum_1_if (fun a => a >=? 2000) (map area ps0))]
                    : gmap string nat)
              = Some (list_to_map
                        [("tiny", sum_1_if (fun a => a <? 100) (map area ps1));
                         ("small", sum_1_if (fun a => (100 <=? a) && (a <? 500))
                                     (map area ps1));
                         ("medium", sum_1_if (fun a => (500 <=? a) && (a <? 2000))
                                      (map area ps1));
                         ("large", sum_1_if (fun a => a >=? 2000)
                                     (map area ps1))])).
      now rewrite !(sum_1_if_permutation _ _ _ Hareas). }
    split.
    { change (Some (count_shapes (map shape_type ps0))
              = Some (count_shapes (map shape_type ps1))).
      now rewrite (count_shapes_permutation _ _ Hshapes). }
    change (Some (list_to_map
                    [("smooth",
                      sum_1_if (fun p => get (std_intensity p) 0 <? 20) ps0);
                     ("rough",
                      sum_1_if (fun p => (20 <=? get (std_intensity p) 0)
                                         && (get (std_intensity p) 0 <? 50)) ps0);
                     ("weathered",
                      sum_1_if (fun p => get (std_intensity p) 0 >=? 50) ps0)]
                  : gmap string nat)
            = Some (list_to_map
                      [("smooth",
                        sum_1_if (fun p => get (std_intensity p) 0 <? 20) ps1);
                       ("rough",
                        sum_1_if (fun p => (20 <=? get (std_intensity p) 0)
                                           && (get (std_intensity p) 0 <? 50))
                          ps1);
                       ("weathered",
                        sum_1_if (fun p => get (std_intensity p) 0 >=? 50)
                          ps1)])).
    now rewrite !(sum_1_if_permutation _ _ _ H).
Qed.

Lemma histograms_ignore_order_witness :
  hist_at "size_distribution"
    (quantify_particles sqrt_2dp [square_particle; enlarged_particle])
  = hist_at "size_distribution"
      (quantify_particles sqrt_2dp [enlarged_particle; square_particle]).
Proof.
  assert (Hperm : [square_particle; enlarged_particle]
                    ≡ₚ [enlarged_particle; square_particle])
    by apply Permutation_swap.
  exact (proj1 (proj2 (histograms_ignore_order sqrt_2dp _ _ Hperm))).
Defined.
